(** * Tool functions and provisioning helpers of the agent notebooks

    A shallow embedding of the Python functions the notebooks define
    themselves:

    - [current_time] and [current_weather] (the LiteLLM notebook),
    - [websearch] (the persistent-memory notebook),
    - [create_s3_bucket] and [upload_directory] (the knowledge-base
      notebook).

    Everything these functions call lives outside the repository (the
    Python runtime, [zoneinfo], [datetime], [duckduckgo_search], [boto3],
    [os]).  Those collaborators are modelled as explicit state and as
    oracles the definitions take as parameters; each function body is
    transcribed statement by statement on top of them. *)

From Stdlib Require Import ZArith Lia Bool Ascii String List.
From stdpp Require Import base option list strings gmap.

Local Open Scope Z_scope.

(** ** The Python runtime: exception classes, outcomes, effects *)

Module Py.

(** The exception classes that can reach the notebooks' code, with the
    inheritance the defining libraries give them. *)
Inductive pyclass : Type :=
| BaseException
| KeyboardInterrupt
| Exception
| ValueError
| AttributeError
| LookupError
| KeyError
| ZoneInfoNotFoundError
| OSError
| FileNotFoundError
| OverflowError
| DuckDuckGoSearchException
| RatelimitException
| TimeoutException
| ConversationLimitException
| ClientError
| BucketAlreadyExists
| BucketAlreadyOwnedByYou
| BotoCoreError
| EndpointConnectionError
| Boto3Error
| S3UploadFailedError.

#[global] Instance pyclass_eq_dec : EqDecision pyclass.
Proof. solve_decision. Defined.

(** [base c] is the direct base class of [c]; [BaseException] is the
    root. *)
Definition base (c : pyclass) : option pyclass :=
  match c with
  | BaseException => None
  | KeyboardInterrupt => Some BaseException
  | Exception => Some BaseException
  | ValueError => Some Exception
  | AttributeError => Some Exception
  | LookupError => Some Exception
  | KeyError => Some LookupError
  | ZoneInfoNotFoundError => Some KeyError
  | OSError => Some Exception
  | FileNotFoundError => Some OSError
  | OverflowError => Some Exception
  | DuckDuckGoSearchException => Some Exception
  | RatelimitException => Some DuckDuckGoSearchException
  | TimeoutException => Some DuckDuckGoSearchException
  | ConversationLimitException => Some DuckDuckGoSearchException
  | ClientError => Some Exception
  | BucketAlreadyExists => Some ClientError
  | BucketAlreadyOwnedByYou => Some ClientError
  | BotoCoreError => Some Exception
  | EndpointConnectionError => Some BotoCoreError
  | Boto3Error => Some Exception
  | S3UploadFailedError => Some Boto3Error
  end.

(** The chain of classes from [c] up to the root, [c] first.  No chain
    of the table above is longer than five classes. *)
Fixpoint ancestors (fuel : nat) (c : pyclass) : list pyclass :=
  match fuel with
  | O => [c]
  | S fuel' =>
      match base c with
      | None => [c]
      | Some b => c :: ancestors fuel' b
      end
  end.

Definition mro (c : pyclass) : list pyclass := ancestors 5 c.

Definition issubclass (c d : pyclass) : bool :=
  bool_decide (d ∈ mro c).

(** The parsed error document a [ClientError] carries in its
    [response] attribute.  botocore's response parsers always fill in
    both entries of the ["Error"] dictionary. *)
Record ErrorResponse : Type := mkErrorResponse {
  Error_Code : string;
  Error_Message : string
}.

(** The subclasses of [ClientError] the S3 client can raise. *)
Inductive client_error_class : Type :=
| GenericClientError
| BucketAlreadyExistsError
| BucketAlreadyOwnedByYouError.

Definition client_error_pyclass (c : client_error_class) : pyclass :=
  match c with
  | GenericClientError => ClientError
  | BucketAlreadyExistsError => BucketAlreadyExists
  | BucketAlreadyOwnedByYouError => BucketAlreadyOwnedByYou
  end.

(** A raised exception object: its class and what the handlers of the
    notebooks read from it ([str(e)], [e.response]). *)
Inductive exn : Type :=
| PyExc (cls : pyclass) (msg : string)
| BotoClientError (cls : client_error_class) (response : ErrorResponse)
                  (operation_name : string).

Definition exn_class (e : exn) : pyclass :=
  match e with
  | PyExc c _ => c
  | BotoClientError c _ _ => client_error_pyclass c
  end.

(** [str(e)]: the message for ordinary exceptions, botocore's
    [MSG_TEMPLATE] for client errors. *)
Definition exn_str (e : exn) : string :=
  match e with
  | PyExc _ msg => msg
  | BotoClientError _ r op =>
      "An error occurred (" +:+ Error_Code r +:+ ") when calling the "
        +:+ op +:+ " operation: " +:+ Error_Message r
  end.

Definition isinstance (e : exn) (c : pyclass) : bool :=
  issubclass (exn_class e) c.

(** The result of running a piece of Python: a value, or a raised
    exception. *)
Inductive outcome (A : Type) : Type :=
| Return (a : A)
| Raise (e : exn).
Arguments Return {A} a.
Arguments Raise {A} e.

Definition returns {A} (o : outcome A) : Prop := exists a, o = Return a.

(** Effectful code threads a state [S]; a raised exception keeps the
    state changes made before it. *)
Definition M (S A : Type) : Type := S -> outcome A * S.

Definition ret {S A} (a : A) : M S A := fun s => (Return a, s).

Definition raise {S A} (e : exn) : M S A := fun s => (Raise e, s).

Definition bind {S A B} (m : M S A) (k : A -> M S B) : M S B :=
  fun s =>
    match m s with
    | (Return a, s') => k a s'
    | (Raise e, s') => (Raise e, s')
    end.

(** An [except C as e: h] clause. *)
Definition handler (S A : Type) : Type := (pyclass * (exn -> M S A))%type.

(** The clauses of a [try] statement are tried in order; the first
    whose class the exception is an instance of runs, and an exception
    no clause matches propagates. *)
Fixpoint dispatch {S A} (hs : list (handler S A)) (e : exn) : M S A :=
  match hs with
  | [] => raise e
  | (c, h) :: hs' => if isinstance e c then h e else dispatch hs' e
  end.

Definition try_except {S A} (body : M S A) (hs : list (handler S A))
  : M S A :=
  fun s =>
    match body s with
    | (Return a, s') => (Return a, s')
    | (Raise e, s') => dispatch hs e s'
    end.

End Py.

Export Py.

(** stdpp's monad notations ([x ← m; k] and [m ;; k]) for [Py.M]. *)
#[global] Instance M_ret {S} : MRet (Py.M S) := fun A a => Py.ret a.
#[global] Instance M_bind {S} : MBind (Py.M S) := fun A B k m => Py.bind m k.

(** ** The persistent-memory notebook: [websearch] *)

Module MemoryAgent.

(** One record of a DuckDuckGo text search. *)
Record SearchResult : Type := mkSearchResult {
  title : string;
  href : string;
  body : string
}.

(** The calls [websearch] issues to the [duckduckgo_search] package. *)
Inductive Call : Type :=
| CallDDGS
| CallText (keywords region : string) (max_results : option Z).

(** The state [websearch] can touch: the log of calls issued so far,
    oldest first. *)
Definition World : Type := list Call.

(** The search provider: how the constructor [DDGS()] and the method
    [text] answer, given the calls issued before. *)
Record Provider : Type := mkProvider {
  DDGS_init : World -> outcome unit;
  DDGS_text : World -> string -> string -> option Z
              -> outcome (list SearchResult)
}.

(** What [websearch] hands back: the provider's list of records, or a
    string. *)
Inductive ToolReturn : Type :=
| Records (rs : list SearchResult)
| Text (s : string).

(** Truth value of a Python list: empty lists are false. *)
Definition truthy {A} (l : list A) : bool :=
  match l with
  | [] => false
  | _ :: _ => true
  end.

Section Tool.
Context (P : Provider).

Definition DDGS : M World unit :=
  fun log => (DDGS_init P log, log ++ [CallDDGS]).

Definition text (keywords region : string) (max_results : option Z)
  : M World (list SearchResult) :=
  fun log => (DDGS_text P log keywords region max_results,
              log ++ [CallText keywords region max_results]).

(** <<
    try:
        results = DDGS().text(keywords, region=region, max_results=max_results)
        return results if results else "No results found."
    except RatelimitException:
        return "RatelimitException: Please try again after a short delay."
    except DuckDuckGoSearchException as d:
        return f"DuckDuckGoSearchException: {d}"
    except Exception as e:
        return f"Exception: {e}"
    >> *)
Definition websearch (keywords region : string) (max_results : option Z)
  : M World ToolReturn :=
  try_except
    (_ ← DDGS;
     results ← text keywords region max_results;
     mret (if truthy results then Records results
           else Text "No results found."))
    [ (RatelimitException, fun _ =>
         mret (Text "RatelimitException: Please try again after a short delay."));
      (DuckDuckGoSearchException, fun d =>
         mret (Text ("DuckDuckGoSearchException: " +:+ exn_str d)));
      (Exception, fun e =>
         mret (Text ("Exception: " +:+ exn_str e))) ].

End Tool.

Definition default_max_results : option Z := None.

(** The three [except] clauses, applied to a raised exception. *)
Definition error_text (e : exn) : string :=
  if isinstance e RatelimitException
  then "RatelimitException: Please try again after a short delay."
  else if isinstance e DuckDuckGoSearchException
       then "DuckDuckGoSearchException: " +:+ exn_str e
       else "Exception: " +:+ exn_str e.

(** A provider that fails, when it fails, with instances of [Exception]
    (and not with [KeyboardInterrupt] and the like, which no library
    raises). *)
Definition raises_Exceptions_only (P : Provider) : Prop :=
  (forall log e, DDGS_init P log = Raise e -> isinstance e Exception = true)
  /\ (forall log keywords region max_results e,
         DDGS_text P log keywords region max_results = Raise e ->
         isinstance e Exception = true).

(** How often the log records a call of [text]. *)
Definition is_text (c : Call) : bool :=
  match c with
  | CallText _ _ _ => true
  | CallDDGS => false
  end.

Definition searches (log : World) : nat := length (List.filter is_text log).

End MemoryAgent.

(** ** The [datetime] module of the standard library

    [current_time] formats [datetime.now(tz)] with [isoformat].  Both
    belong to CPython, not to the repository; the model follows
    [Lib/_pydatetime.py] for the proleptic Gregorian calendar and for the
    text [isoformat] produces. *)

Module Datetime.

(** *** Calendar arithmetic *)

Definition DAYS_IN_MONTH : list Z :=
  [-1; 31; 28; 31; 30; 31; 30; 31; 31; 30; 31; 30; 31].

Definition DAYS_BEFORE_MONTH : list Z :=
  [-1; 0; 31; 59; 90; 120; 151; 181; 212; 243; 273; 304; 334].

Definition index (l : list Z) (i : Z) : Z := nth (Z.to_nat i) l 0.

Definition is_leap (year : Z) : bool :=
  (year mod 4 =? 0) && (negb (year mod 100 =? 0) || (year mod 400 =? 0)).

Definition days_before_year (year : Z) : Z :=
  let y := year - 1 in
  y * 365 + y / 4 - y / 100 + y / 400.

Definition days_in_month (year month : Z) : Z :=
  if (month =? 2) && is_leap year then 29 else index DAYS_IN_MONTH month.

Definition days_before_month (year month : Z) : Z :=
  index DAYS_BEFORE_MONTH month
  + (if (month >? 2) && is_leap year then 1 else 0).

Definition ymd2ord (year month day : Z) : Z :=
  days_before_year year + days_before_month year month + day.

Definition DI400Y : Z := 146097.
Definition DI100Y : Z := 36524.
Definition DI4Y : Z := 1461.

Definition MINYEAR : Z := 1.
Definition MAXYEAR : Z := 9999.
Definition MAXORDINAL : Z := 3652059.

(** Ordinal of a day (1 is 0001-01-01) to year, month and day. *)
Definition ord2ymd (n : Z) : Z * Z * Z :=
  let n := n - 1 in
  let n400 := n / DI400Y in
  let n := n mod DI400Y in
  let year := n400 * 400 + 1 in
  let n100 := n / DI100Y in
  let n := n mod DI100Y in
  let n4 := n / DI4Y in
  let n := n mod DI4Y in
  let n1 := n / 365 in
  let n := n mod 365 in
  let year := year + n100 * 100 + n4 * 4 + n1 in
  if (n1 =? 4) || (n100 =? 4) then (year - 1, 12, 31)
  else
    let leapyear := (n1 =? 3) && (negb (n4 =? 24) || (n100 =? 3)) in
    let month := Z.shiftr (n + 50) 5 in
    let preceding :=
      index DAYS_BEFORE_MONTH month
      + (if (month >? 2) && leapyear then 1 else 0) in
    if preceding >? n then
      let month := month - 1 in
      let preceding :=
        preceding - (index DAYS_IN_MONTH month
                     + (if (month =? 2) && leapyear then 1 else 0)) in
      (year, month, n - preceding + 1)
    else (year, month, n - preceding + 1).

(** *** Aware datetime objects *)

(** A [tzinfo] object, as far as [datetime.now] and [isoformat] use it:
    the offset from UTC, in seconds, in force at a UTC instant given in
    seconds since the epoch. *)
Record tzinfo : Type := mkTzinfo {
  tzname : string;
  utcoffset : Z -> Z
}.

(** [datetime.timezone.utc] *)
Definition utc : tzinfo := {| tzname := "UTC"; utcoffset := fun _ => 0 |}.

(** An aware [datetime]: the civil fields, and the offset from UTC
    (seconds) its zone gives them. *)
Record datetime : Type := mkDatetime {
  year : Z;
  month : Z;
  day : Z;
  hour : Z;
  minute : Z;
  second : Z;
  microsecond : Z;
  offset : Z
}.

(** Ordinal of 1970-01-01. *)
Definition EPOCH_ORDINAL : Z := 719163.

(** The civil reading of the instant [t] seconds and [us] microseconds
    after the epoch, on a clock running [off] seconds ahead of UTC. *)
Definition civil (t us off : Z) : datetime :=
  let local := t + off in
  let '(y, m, d) := ord2ymd (local / 86400 + EPOCH_ORDINAL) in
  let rem := local mod 86400 in
  {| year := y; month := m; day := d;
     hour := rem / 3600; minute := rem mod 3600 / 60; second := rem mod 60;
     microsecond := us; offset := off |}.

Definition ordinal_in_range (t : Z) : bool :=
  let n := t / 86400 + EPOCH_ORDINAL in
  (1 <=? n) && (n <=? MAXORDINAL).

(** [datetime.now(tz)] for a zone [tz], with the wall clock showing
    [clock] microseconds since the epoch: the UTC reading is built
    first ([ValueError] when its year is out of range), then
    [tz.fromutc] moves it to the zone ([OverflowError] when that leaves
    the range of dates). *)
Definition now (tz : tzinfo) (clock : Z) : outcome datetime :=
  let t := clock / 1000000 in
  let us := clock mod 1000000 in
  if negb (ordinal_in_range t) then
    Raise (PyExc ValueError "year is out of range")
  else
    let off := utcoffset tz t in
    if negb (ordinal_in_range (t + off)) then
      Raise (PyExc OverflowError "date value out of range")
    else Return (civil t us off).

(** *** [isoformat] *)

Definition digit (n : Z) : ascii :=
  Ascii.ascii_of_N (48 + Z.to_N n).

(** The [w]-digit decimal numeral of [n]: what ["%0wd" % n] prints when
    [0 <= n < 10^w], which the ranges of the fields guarantee. *)
Fixpoint digits (w : nat) (n : Z) : string :=
  match w with
  | O => ""
  | S w' => digits w' (n / 10) +:+ String (digit (n mod 10)) ""
  end.

Definition format_time (hh mm ss us : Z) : string :=
  digits 2 hh +:+ ":" +:+ digits 2 mm +:+ ":" +:+ digits 2 ss
    +:+ (if us =? 0 then "" else "." +:+ digits 6 us).

Definition format_offset (off : Z) : string :=
  let sign := if off <? 0 then "-" else "+" in
  let off := Z.abs off in
  let hh := off / 3600 in
  let mm := off mod 3600 / 60 in
  let ss := off mod 60 in
  sign +:+ digits 2 hh +:+ ":" +:+ digits 2 mm
    +:+ (if ss =? 0 then "" else ":" +:+ digits 2 ss).

(** [d.isoformat()]; reading the offset fails with [ValueError] unless
    it lies strictly between minus and plus 24 hours. *)
Definition isoformat (d : datetime) : outcome string :=
  if (-86400 <? offset d) && (offset d <? 86400) then
    Return (digits 4 (year d) +:+ "-" +:+ digits 2 (month d) +:+ "-"
              +:+ digits 2 (day d) +:+ "T"
              +:+ format_time (hour d) (minute d) (second d) (microsecond d)
              +:+ format_offset (offset d))
  else
    Raise (PyExc ValueError
             "offset must be a timedelta strictly between -timedelta(hours=24) and timedelta(hours=24)").

(** *** Reading ISO 8601 timestamps back

    A recogniser for the extended format
    [YYYY-MM-DDThh:mm:ss[.ffffff]+hh:mm[:ss]], with the range checks of
    the [datetime] constructor. *)

Definition digit_value (c : ascii) : option Z :=
  let n := Ascii.N_of_ascii c in
  if ((48 <=? n) && (n <=? 57))%N then Some (Z.of_N n - 48) else None.

(** Reads exactly [w] decimal digits; [acc] is the value read so far. *)
Fixpoint read_digits (w : nat) (acc : Z) (s : string)
  : option (Z * string) :=
  match w with
  | O => Some (acc, s)
  | S w' =>
      match s with
      | String c s' =>
          match digit_value c with
          | Some v => read_digits w' (10 * acc + v) s'
          | None => None
          end
      | EmptyString => None
      end
  end.

Definition read_number (w : nat) (s : string) : option (Z * string) :=
  read_digits w 0 s.

(** Reads the character [c]. *)
Definition expect (c : ascii) (s : string) : option string :=
  match s with
  | String c' s' => if Ascii.eqb c c' then Some s' else None
  | EmptyString => None
  end.

Definition read_fraction (s : string) : option (Z * string) :=
  match expect "." s with
  | Some s' => read_number 6 s'
  | None => Some (0, s)
  end.

Definition read_sign (s : string) : option (Z * string) :=
  match s with
  | String "+" s' => Some (1, s')
  | String "-" s' => Some (-1, s')
  | _ => None
  end.

Definition read_offset_seconds (s : string) : option (Z * string) :=
  match expect ":" s with
  | Some s' => read_number 2 s'
  | None => Some (0, s)
  end.

Definition valid_fields (d : datetime) : bool :=
  (MINYEAR <=? year d) && (year d <=? MAXYEAR)
  && (1 <=? month d) && (month d <=? 12)
  && (1 <=? day d) && (day d <=? days_in_month (year d) (month d))
  && (0 <=? hour d) && (hour d <? 24)
  && (0 <=? minute d) && (minute d <? 60)
  && (0 <=? second d) && (second d <? 60)
  && (0 <=? microsecond d) && (microsecond d <? 1000000)
  && (-86400 <? offset d) && (offset d <? 86400).

Definition parse_isoformat (s : string) : option datetime :=
  '(y, s) ← read_number 4 s;
  s ← expect "-" s;
  '(m, s) ← read_number 2 s;
  s ← expect "-" s;
  '(d, s) ← read_number 2 s;
  s ← expect "T" s;
  '(hh, s) ← read_number 2 s;
  s ← expect ":" s;
  '(mm, s) ← read_number 2 s;
  s ← expect ":" s;
  '(ss, s) ← read_number 2 s;
  '(us, s) ← read_fraction s;
  '(sign, s) ← read_sign s;
  '(oh, s) ← read_number 2 s;
  s ← expect ":" s;
  '(om, s) ← read_number 2 s;
  '(os, s) ← read_offset_seconds s;
  let d := {| year := y; month := m; day := d;
              hour := hh; minute := mm; second := ss; microsecond := us;
              offset := sign * (oh * 3600 + om * 60 + os) |} in
  if (s =? "")%string && (om <? 60) && (os <? 60) && valid_fields d
  then Some d else None.

(** *** Ranges

    [datetime] covers the years 1 to 9999 and offsets of less than a
    day.  A clock strictly inside that range can be shown in every zone. *)

Definition clock_in_range (clock : Z) : Prop :=
  1 < clock / 1000000 / 86400 + EPOCH_ORDINAL < MAXORDINAL.

Definition valid_zone (tz : tzinfo) : Prop :=
  forall t, -86400 < utcoffset tz t < 86400.

(** The last step of [ord2ymd] on its own: month and day of the [n]-th
    day (from 0) of a year. *)
Definition month_day (n : Z) (leapyear : bool) : Z * Z :=
  let month := Z.shiftr (n + 50) 5 in
  let preceding :=
    index DAYS_BEFORE_MONTH month
    + (if (month >? 2) && leapyear then 1 else 0) in
  if preceding >? n then
    let month := month - 1 in
    let preceding :=
      preceding - (index DAYS_IN_MONTH month
                   + (if (month =? 2) && leapyear then 1 else 0)) in
    (month, n - preceding + 1)
  else (month, n - preceding + 1).

(** What [month_day] has to deliver: a month, a day of that month, and
    together the day of the year they were computed from. *)
Definition month_day_ok (leapyear : bool) (n : Z) : bool :=
  let '(m, d) := month_day n leapyear in
  (1 <=? m) && (m <=? 12) && (1 <=? d)
  && (d <=? (if (m =? 2) && leapyear then 29 else index DAYS_IN_MONTH m))
  && (index DAYS_BEFORE_MONTH m + (if (m >? 2) && leapyear then 1 else 0) + d
      =? n + 1).

(** The instant an aware datetime denotes, in seconds since the epoch
    (the microseconds are carried by the [microsecond] field). *)
Definition timestamp (d : datetime) : Z :=
  (ymd2ord (year d) (month d) (day d) - EPOCH_ORDINAL) * 86400
  + hour d * 3600 + minute d * 60 + second d - offset d.

End Datetime.

(** ** The LiteLLM notebook: [current_time] and [current_weather] *)

Module TimeWeather.
Import Datetime.

(** [c.upper()] on one byte: ASCII letters are folded, every other byte
    is kept. *)
Definition upper_char (c : ascii) : ascii :=
  let n := Ascii.N_of_ascii c in
  if ((97 <=? n) && (n <=? 122))%N then Ascii.ascii_of_N (n - 32) else c.

(** [s.upper()] *)
Fixpoint upper (s : string) : string :=
  match s with
  | EmptyString => EmptyString
  | String c s' => String (upper_char c) (upper s')
  end.

(** What the two tools can observe or change: the wall clock
    (microseconds since the epoch) and the log of [ZoneInfo] lookups,
    oldest first. *)
Record World : Type := mkWorld {
  clock : Z;
  zone_lookups : list string
}.

Section Tools.
(** The time zone database as [zoneinfo] finds it: the zone a key
    names, or the exception the constructor raises for it. *)
Context (tzdata : string -> outcome tzinfo).

(** [ZoneInfo(key)] *)
Definition ZoneInfo (key : string) : M World tzinfo :=
  fun w => (tzdata key,
            {| clock := clock w;
               zone_lookups := zone_lookups w ++ [key] |}).

(** [datetime.now(tz)] *)
Definition datetime_now (tz : tzinfo) : M World datetime :=
  fun w => (now tz (clock w), w).

(** A library call that neither reads nor writes the world. *)
Definition lift {A} (o : outcome A) : M World A := fun w => (o, w).

(** <<
    @tool
    def current_time(timezone: str = "UTC") -> str:
        if timezone.upper() == "UTC":
            timezone_obj: Any = tz.utc
        else:
            timezone_obj = ZoneInfo(timezone)

        return datetime.now(timezone_obj).isoformat()
    >> *)
Definition current_time (timezone : string) : M World string :=
  timezone_obj ← (if String.eqb (upper timezone) "UTC"
                  then mret utc
                  else ZoneInfo timezone);
  now ← datetime_now timezone_obj;
  lift (isoformat now).

(** <<
    @tool
    def current_weather(city: str) -> str:
        return "sunny"
    >> *)
Definition current_weather (city : string) : M World string :=
  mret "sunny".

End Tools.

(** The text [current_time] produces for the zone [tz] when the clock
    shows [clock]. *)
Definition timestamp_in (tz : tzinfo) (clock : Z) : outcome string :=
  match now tz clock with
  | Return d => isoformat d
  | Raise e => Raise e
  end.

Definition default_timezone : string := "UTC".

(** A database given as a finite table of keys; a key outside the table
    makes [ZoneInfo] raise [ZoneInfoNotFoundError]. *)
Definition tzdata_of_table (db : gmap string tzinfo) (key : string)
  : outcome tzinfo :=
  match db !! key with
  | Some z => Return z
  | None =>
      Raise (PyExc ZoneInfoNotFoundError
               ("'No time zone found with key " +:+ key +:+ "'"))
  end.

End TimeWeather.

(** ** The knowledge-base notebook: [create_s3_bucket], [upload_directory] *)

Module KnowledgeBase.

(** A local directory tree, as [os.walk] sees it: the entries of a
    directory in the order [os.scandir] lists them. *)
#[warnings="-register-all"]
Inductive node : Type :=
| File
| Dir (entries : list (string * node)).

Definition is_dir (n : node) : bool :=
  match n with
  | Dir _ => true
  | File => false
  end.

(** [posixpath.join(a, b)] *)
Definition os_path_join (a b : string) : string :=
  if String.prefix "/" b then b
  else if String.eqb a "" || String.eqb (String.substring (String.length a - 1) 1 a) "/"
       then a +:+ b
       else a +:+ "/" +:+ b.

(** Whether a path has a separator in it. *)
Fixpoint has_sep (p : string) : bool :=
  match p with
  | EmptyString => false
  | String c p' => Ascii.eqb c "/" || has_sep p'
  end.

(** [posixpath.basename(p)]: what follows the last separator. *)
Fixpoint basename (p : string) : string :=
  match p with
  | EmptyString => EmptyString
  | String c p' =>
      if has_sep p' then basename p'
      else if Ascii.eqb c "/" then p' else p
  end.

Definition dirnames (entries : list (string * node)) : list string :=
  map fst (List.filter (fun e => is_dir (snd e)) entries).

Definition filenames (entries : list (string * node)) : list string :=
  map fst (List.filter (fun e => negb (is_dir (snd e))) entries).

(** [os.walk(top)], top-down: the triple of a directory comes before the
    triples of its subdirectories; a [top] that is no directory yields
    nothing. *)
Fixpoint walk (top : string) (n : node)
  : list (string * list string * list string) :=
  match n with
  | File => []
  | Dir entries =>
      (top, dirnames entries, filenames entries)
        :: flat_map (fun e => let '(name, child) := e in
                              walk (os_path_join top name) child)
                    entries
  end.

(** The calls the notebook issues to [boto3]. *)
Inductive Call : Type :=
| CallClient (service : string) (region_name : option string)
| CallCreateBucket (Bucket : string) (LocationConstraint : option string)
| CallUploadFile (Filename Bucket Key : string).

(** The state of the notebook's surroundings: the calls issued so far
    and the lines printed (oldest first), the local directory trees by
    path, and the objects in S3, each remembered by the local file it
    was uploaded from. *)
Record World : Type := mkWorld {
  calls : list Call;
  stdout : list string;
  trees : gmap string node;
  objects : gmap (string * string) string
}.

(** How AWS answers each call, given the world before it. *)
Record AWS : Type := mkAWS {
  client_response : World -> string -> option string -> outcome unit;
  create_bucket_response : World -> string -> option string -> outcome unit;
  upload_file_response : World -> string -> string -> string -> outcome unit
}.

Definition log_call (c : Call) (w : World) : World :=
  {| calls := calls w ++ [c]; stdout := stdout w;
     trees := trees w; objects := objects w |}.

Definition put_object (Filename Bucket Key : string) (w : World) : World :=
  {| calls := calls w; stdout := stdout w; trees := trees w;
     objects := <[(Bucket, Key) := Filename]> (objects w) |}.

(** [print(line)] *)
Definition print (line : string) : M World unit :=
  fun w => (Return tt,
            {| calls := calls w; stdout := stdout w ++ [line];
               trees := trees w; objects := objects w |}).

(** [os.walk(path)], read off the world; errors of [scandir] are
    ignored, so a missing [path] yields nothing. *)
Definition os_walk (path : string)
  : M World (list (string * list string * list string)) :=
  fun w => (Return (match trees w !! path with
                    | Some n => walk path n
                    | None => []
                    end), w).

(** A [for] loop over a list. *)
Fixpoint for_each {A} (l : list A) (body : A -> M World unit)
  : M World unit :=
  match l with
  | [] => mret tt
  | x :: l' => body x;; for_each l' body
  end.

(** [e.response['Error']['Message']]: only client errors have the
    [response] attribute. *)
Definition error_message (e : exn) : M World string :=
  match e with
  | BotoClientError _ r _ => mret (Error_Message r)
  | PyExc _ _ =>
      Py.raise (PyExc AttributeError "object has no attribute 'response'")
  end.

Definition is_None {A} (o : option A) : bool :=
  match o with
  | None => true
  | Some _ => false
  end.

Section Notebook.
Context (aws : AWS).

(** [boto3.client(service, region_name=region)] *)
Definition boto3_client (service : string) (region_name : option string)
  : M World unit :=
  fun w => (client_response aws w service region_name,
            log_call (CallClient service region_name) w).

(** [s3.create_bucket(Bucket=..., CreateBucketConfiguration=
    {'LocationConstraint': ...})]; the configuration is [None] when
    the call passes none. *)
Definition create_bucket (Bucket : string)
           (LocationConstraint : option string) : M World unit :=
  fun w => (create_bucket_response aws w Bucket LocationConstraint,
            log_call (CallCreateBucket Bucket LocationConstraint) w).

(** [s3_client.upload_file(Filename, Bucket, Key)]: a successful
    upload stores the object under [Key], replacing what was there. *)
Definition upload_file (Filename Bucket Key : string) : M World unit :=
  fun w =>
    let w' := log_call (CallUploadFile Filename Bucket Key) w in
    match upload_file_response aws w Filename Bucket Key with
    | Return _ => (Return tt, put_object Filename Bucket Key w')
    | Raise e => (Raise e, w')
    end.

(** <<
    def create_s3_bucket(bucket_name, region=None):
        s3 = boto3.client('s3', region_name=region)

        try:
            if region is None or region == 'us-east-1':
                s3.create_bucket(Bucket=bucket_name)
            else:
                s3.create_bucket(
                    Bucket=bucket_name,
                    CreateBucketConfiguration={'LocationConstraint': region}
                )
            print(f"✅ Bucket '{bucket_name}' created successfully.")
        except botocore.exceptions.ClientError as e:
            print(f"❌ Failed to create bucket: {e.response['Error']['Message']}")
    >> *)
Definition create_s3_bucket (bucket_name : string) (region : option string)
  : M World unit :=
  _ ← boto3_client "s3" region;
  try_except
    ((if is_None region || bool_decide (region = Some "us-east-1")
      then create_bucket bucket_name None
      else create_bucket bucket_name region);;
     print ("✅ Bucket '" +:+ bucket_name +:+ "' created successfully."))
    [ (ClientError, fun e =>
         message ← error_message e;
         print ("❌ Failed to create bucket: " +:+ message)) ].

(** <<
    def upload_directory(path, bucket_name):
        for root,dirs,files in os.walk(path):
            for file in files:
                file_to_upload = os.path.join(root,file)
                print(f"uploading file {file_to_upload} to {bucket_name}")
                s3_client.upload_file(file_to_upload,bucket_name,file)
    >> *)
Definition upload_directory (path bucket_name : string) : M World unit :=
  triples ← os_walk path;
  for_each triples (fun '(root, dirs, files) =>
    for_each files (fun file =>
      let file_to_upload := os_path_join root file in
      print ("uploading file " +:+ file_to_upload +:+ " to " +:+ bucket_name);;
      upload_file file_to_upload bucket_name file)).

End Notebook.

End KnowledgeBase.

(** ** Sample environments

    Concrete providers, databases and worlds on which the properties
    below are exercised. *)

Module SampleSearches.
Import MemoryAgent.

Definition cat_results : list SearchResult :=
  [ {| title := "Cat - Wikipedia";
       href := "https://en.wikipedia.org/wiki/Cat";
       body := "The cat is a small domesticated carnivorous mammal." |};
    {| title := "Cats | National Geographic";
       href := "https://www.nationalgeographic.com/animals/mammals/facts/domestic-cat";
       body := "Facts about domestic cats." |};
    {| title := "Cat breeds";
       href := "https://www.purina.com/cats/cat-breeds";
       body := "Browse cat breeds." |};
    {| title := "Cats Protection";
       href := "https://www.cats.org.uk";
       body := "UK cat welfare charity." |} ].

(** The cap [text] applies: the first [n] results when [max_results] is a
    positive [n], everything otherwise. *)
Definition capped {A} (max_results : option Z) (rs : list A) : list A :=
  match max_results with
  | Some n => if 0 <? n then take (Z.to_nat n) rs else rs
  | None => rs
  end.

(** A provider that knows about cats and nothing else. *)
Definition cat_provider : Provider :=
  {| DDGS_init := fun _ => Return tt;
     DDGS_text := fun _ keywords _ max_results =>
       if String.eqb keywords "cats"
       then Return (capped max_results cat_results)
       else Return [] |}.


(** A provider whose every search fails with the exception [e]. *)
Definition failing_provider (e : exn) : Provider :=
  {| DDGS_init := fun _ => Return tt;
     DDGS_text := fun _ _ _ _ => Raise e |}.

Definition ratelimited : exn :=
  PyExc RatelimitException "https://html.duckduckgo.com/html 202 Ratelimit".

Definition timed_out : exn :=
  PyExc TimeoutException "https://html.duckduckgo.com/html timed out".

Definition broken : exn := PyExc ValueError "unexpected response".

End SampleSearches.

Module SampleZones.
Import Datetime TimeWeather.

(** Pacific time in 2024: daylight saving time from 10 March, 10:00 UTC,
    to 3 November, 09:00 UTC. *)
Definition los_angeles : tzinfo :=
  {| tzname := "America/Los_Angeles";
     utcoffset := fun t =>
       if (1710064800 <=? t) && (t <? 1730624400) then -25200 else -28800 |}.

Definition kolkata : tzinfo :=
  {| tzname := "Asia/Kolkata"; utcoffset := fun _ => 19800 |}.

Definition sample_table : gmap string tzinfo :=
  {[ "America/Los_Angeles" := los_angeles; "Asia/Kolkata" := kolkata ]}.

Definition sample_tzdata : string -> outcome tzinfo :=
  tzdata_of_table sample_table.

(** 2024-06-01 12:00:00.123456 UTC, nothing looked up yet. *)
Definition noon : World :=
  {| clock := 1717243200123456; zone_lookups := [] |}.

(** Half a year later: 2024-12-01 12:00:00 UTC. *)
Definition winter_noon : World :=
  {| clock := 1733054400000000; zone_lookups := [] |}.

End SampleZones.

Module KnowledgeBaseSpec.
Import KnowledgeBase.

(** Bucket creation as the specification words it, for comparison with
    [create_s3_bucket]: one create-bucket call that does not depend on
    the region, whose failure is the caller's to see. *)
Definition create_s3_bucket_spec (aws : AWS) (bucket_name : string)
           (region : option string) : M World unit :=
  _ ← boto3_client aws "s3" region;
  create_bucket aws bucket_name None.

(** The location constraint [create_s3_bucket] sends for a region. *)
Definition location_constraint (region : option string) : option string :=
  match region with
  | None => None
  | Some r => if String.eqb r "us-east-1" then None else Some r
  end.

(** The two lines [create_s3_bucket] can print. *)
Definition success_line (bucket_name : string) : string :=
  "✅ Bucket '" +:+ bucket_name +:+ "' created successfully.".

Definition failure_line (message : string) : string :=
  "❌ Failed to create bucket: " +:+ message.

Definition add_line (line : string) (w : World) : World :=
  {| calls := calls w; stdout := stdout w ++ [line];
     trees := trees w; objects := objects w |}.

(** The world once the client is built and the one create-bucket call
    has been issued. *)
Definition after_create (bucket_name : string) (region : option string)
           (w : World) : World :=
  log_call (CallCreateBucket bucket_name (location_constraint region))
           (log_call (CallClient "s3" region) w).

(** How often the log records a create-bucket call. *)
Definition is_create_bucket (c : Call) : bool :=
  match c with
  | CallCreateBucket _ _ => true
  | _ => false
  end.

Definition bucket_creations (log : list Call) : nat :=
  length (List.filter is_create_bucket log).

(** The files of a walk in the order the loops of [upload_directory]
    reach them: the directory each is listed in, and its name. *)
Definition walk_files (triples : list (string * list string * list string))
  : list (string * string) :=
  flat_map (fun '(root, _, files) => map (pair root) files) triples.

Definition upload_call (bucket_name : string) (rf : string * string) : Call :=
  CallUploadFile (os_path_join rf.1 rf.2) bucket_name rf.2.

Definition upload_line (bucket_name : string) (rf : string * string) : string :=
  "uploading file " +:+ os_path_join rf.1 rf.2 +:+ " to " +:+ bucket_name.

(** The bucket after uploading the files of a walk, one after the other. *)
Definition objects_after (bucket_name : string) (files : list (string * string))
           (objs : gmap (string * string) string)
  : gmap (string * string) string :=
  foldl (fun o rf => <[(bucket_name, rf.2) := os_path_join rf.1 rf.2]> o)
        objs files.

(** The world after the uploads of [files] have all succeeded. *)
Definition after_uploads (bucket_name : string) (files : list (string * string))
           (w : World) : World :=
  {| calls := calls w ++ map (upload_call bucket_name) files;
     stdout := stdout w ++ map (upload_line bucket_name) files;
     trees := trees w;
     objects := objects_after bucket_name files (objects w) |}.

(** [file_in top n root name]: in the tree [n] found at path [top], the
    directory with path [root] lists a file called [name]. *)
Inductive file_in : string -> node -> string -> string -> Prop :=
| file_here top entries name :
    (name, File) ∈ entries ->
    file_in top (Dir entries) top name
| file_below top entries d child root name :
    (d, child) ∈ entries ->
    file_in (os_path_join top d) child root name ->
    file_in top (Dir entries) root name.

End KnowledgeBaseSpec.

Module SampleBuckets.
Import KnowledgeBase.

(** AWS on a good day. *)
Definition obliging : AWS :=
  {| client_response := fun _ _ _ => Return tt;
     create_bucket_response := fun _ _ _ => Return tt;
     upload_file_response := fun _ _ _ _ => Return tt |}.

(** AWS refusing every create-bucket call with the exception [e]. *)
Definition refusing (e : exn) : AWS :=
  {| client_response := fun _ _ _ => Return tt;
     create_bucket_response := fun _ _ _ => Raise e;
     upload_file_response := fun _ _ _ _ => Return tt |}.

Definition bucket_taken : exn :=
  BotoClientError BucketAlreadyExistsError
    {| Error_Code := "BucketAlreadyExists";
       Error_Message := "The requested bucket name is not available." |}
    "CreateBucket".

Definition unreachable : exn :=
  PyExc EndpointConnectionError
        "Could not connect to the endpoint URL".

(** The onboarding documents, with a file name that occurs twice. *)
Definition onboarding_files : node :=
  Dir [ ("handbook.pdf", File);
        ("benefits", Dir [ ("faq.md", File); ("medical.pdf", File) ]);
        ("policies", Dir [ ("faq.md", File) ]) ].

Definition fresh : World :=
  {| calls := []; stdout := [];
     trees := {[ "./onboarding_files" := onboarding_files ]};
     objects := ∅ |}.

End SampleBuckets.

(** ** The knowledge-base notebook: names and the order of its cells *)

Module KnowledgeBaseNames.
Import Datetime.

(** [time.localtime(secs)], as far as [strftime] reads it: the civil
    fields of the instant in the local zone [tz]. *)
Definition localtime (tz : tzinfo) (secs : Z) : datetime :=
  civil secs 0 (utcoffset tz secs).

(** [time.strftime("%Y%m%d%H%M%S", t)]; the year is printed with four
    digits, which is what [%Y] gives for the years 1000 to 9999. *)
Definition strftime_YmdHMS (t : datetime) : string :=
  digits 4 (year t) +:+ digits 2 (month t) +:+ digits 2 (day t)
    +:+ digits 2 (hour t) +:+ digits 2 (minute t) +:+ digits 2 (second t).

(** [s[-n:]]: the last [n] characters, or all of [s] when it is shorter. *)
Definition last_chars (n : nat) (s : string) : string :=
  String.substring (String.length s - n) n s.

(** <<
    current_time = time.time()
    timestamp_str = time.strftime("%Y%m%d%H%M%S", time.localtime(current_time))[-7:]
    suffix = f"{timestamp_str}"
    >>
    [current_time] is given in whole seconds: [localtime] drops the
    fraction. *)
Definition timestamp_str (tz : tzinfo) (current_time : Z) : string :=
  last_chars 7 (strftime_YmdHMS (localtime tz current_time)).

Definition suffix (tz : tzinfo) (current_time : Z) : string :=
  timestamp_str tz current_time.

(** [knowledge_base_name = f"hr-agent-knowledge-base-{suffix}"] *)
Definition knowledge_base_name (suffix : string) : string :=
  "hr-agent-knowledge-base-" +:+ suffix.

(** [data_bucket_name = f'bedrock-hr-agent-{suffix}-bucket'] *)
Definition data_bucket_name (suffix : string) : string :=
  "bedrock-hr-agent-" +:+ suffix +:+ "-bucket".

(** Ten days into the same month: what [month_day] has to deliver. *)
Definition ten_days_ok (leapyear : bool) (n : Z) : bool :=
  let '(m, d) := month_day n leapyear in
  (18 <? d) || ((n + 10 <? 365)
                && bool_decide (month_day (n + 10) leapyear = (m, d + 10))).

(** Whether every character of a string passes a test. *)
Fixpoint all_chars (p : ascii -> bool) (s : string) : bool :=
  match s with
  | EmptyString => true
  | String c s' => p c && all_chars p s'
  end.

Definition is_digit (c : ascii) : bool :=
  let n := Ascii.N_of_ascii c in ((48 <=? n) && (n <=? 57))%N.

Definition is_lower (c : ascii) : bool :=
  let n := Ascii.N_of_ascii c in ((97 <=? n) && (n <=? 122))%N.

(** The characters of lower-case letters, digits and hyphens. *)
Definition is_name_char (c : ascii) : bool :=
  is_lower c || is_digit c || Ascii.eqb c "-".

End KnowledgeBaseNames.

Module KnowledgeBaseCells.
Import KnowledgeBase KnowledgeBaseSpec.


(** One round of the inner loop of [upload_directory], for the file [rf]
    (directory and name):
    <<
    file_to_upload = os.path.join(root,file)
    print(f"uploading file {file_to_upload} to {bucket_name}")
    s3_client.upload_file(file_to_upload,bucket_name,file)
    >> *)
Definition upload_step (aws : AWS) (bucket_name : string)
           (rf : string * string) : M World unit :=
  let file_to_upload := os_path_join rf.1 rf.2 in
  print ("uploading file " +:+ file_to_upload +:+ " to " +:+ bucket_name);;
  upload_file aws file_to_upload bucket_name rf.2.

(** The world after the upload of [rf] was announced, attempted and
    refused. *)
Definition after_failed_upload (bucket_name : string) (rf : string * string)
           (w : World) : World :=
  log_call (upload_call bucket_name rf) (add_line (upload_line bucket_name rf) w).

(** How often the log records an upload. *)
Definition is_upload (c : Call) : bool :=
  match c with
  | CallUploadFile _ _ _ => true
  | _ => false
  end.

Definition uploads (log : list Call) : nat :=
  length (List.filter is_upload log).

End KnowledgeBaseCells.

Module MemoryAgentSpec.
Import MemoryAgent.

(** What the [try] statement of [websearch] makes of an exception raised
    in its body: the string of the first clause that matches, or the
    exception itself when none does. *)
Definition handled (e : exn) : outcome ToolReturn :=
  if isinstance e Exception then Return (Text (error_text e)) else Raise e.

(** The label a returned error string starts with. *)
Definition label (e : exn) : string :=
  if isinstance e DuckDuckGoSearchException
  then "DuckDuckGoSearchException: "
  else "Exception: ".

End MemoryAgentSpec.

Module TimeWeatherSpec.

(** The spellings of "UTC" in upper and lower case. *)
Definition utc_spellings : list string :=
  ["UTC"; "UTc"; "UtC"; "Utc"; "uTC"; "uTc"; "utC"; "utc"].

End TimeWeatherSpec.

Module MoreSamples.
Import MemoryAgent KnowledgeBase.

(** A provider whose constructor fails with the exception [e]. *)
Definition unbuildable_provider (e : exn) : Provider :=
  {| DDGS_init := fun _ => Raise e;
     DDGS_text := fun _ _ _ _ => Return [] |}.

Definition bad_proxy : exn := PyExc ValueError "Unknown scheme for proxy URL".

Definition interrupted : exn := PyExc KeyboardInterrupt "".

(** A region name that is no host label: [boto3.client] checks the
    name before it builds the client and rejects this one. *)
Definition malformed_region : string := "eu west".

(** botocore's [InvalidRegionError], recorded under its base class
    [BotoCoreError]. *)
Definition invalid_region : exn :=
  PyExc BotoCoreError
        "Provided region_name 'eu west' doesn't match a supported format.".

(** AWS as it answers a caller who names [malformed_region]: no client is
    built for that region; everything else goes through. *)
Definition strict_about_regions : AWS :=
  {| client_response := fun _ _ region =>
       if bool_decide (region = Some malformed_region)
       then Raise invalid_region
       else Return tt;
     create_bucket_response := fun _ _ _ => Return tt;
     upload_file_response := fun _ _ _ _ => Return tt |}.

(** AWS accepting every upload but those of the file [Filename]. *)
Definition rejecting_file (Filename : string) (e : exn) : AWS :=
  {| client_response := fun _ _ _ => Return tt;
     create_bucket_response := fun _ _ _ => Return tt;
     upload_file_response := fun _ f _ _ =>
       if String.eqb f Filename then Raise e else Return tt |}.

(** A tree in which no file name occurs twice. *)
Definition guides : node :=
  Dir [ ("intro.md", File); ("hr", Dir [ ("leave.md", File) ]) ].

Definition guides_world : World :=
  {| calls := []; stdout := [];
     trees := {[ "./guides" := guides ]};
     objects := ∅ |}.

Definition upload_failed : exn :=
  PyExc S3UploadFailedError "Failed to upload: NoSuchBucket".

End MoreSamples.

(** * Properties *)

(** ** The model on concrete values *)

Section Checks.
Import Datetime TimeWeather MemoryAgent KnowledgeBase SampleSearches SampleZones
       SampleBuckets.

Example mro_RatelimitException :
  mro RatelimitException
  = [RatelimitException; DuckDuckGoSearchException; Exception; BaseException].
Proof. reflexivity. Qed.

Example KeyboardInterrupt_is_no_Exception :
  issubclass KeyboardInterrupt Exception = false.
Proof. reflexivity. Qed.

Example upper_mixed : upper "Etc/utc_9" = "ETC/UTC_9".
Proof. reflexivity. Qed.

Example ord2ymd_leap_day : ord2ymd 730179 = (2000, 2, 29).
Proof. reflexivity. Qed.

Example ord2ymd_last_day : ord2ymd MAXORDINAL = (9999, 12, 31).
Proof. reflexivity. Qed.

Example ymd2ord_epoch : ymd2ord 1970 1 1 = EPOCH_ORDINAL.
Proof. reflexivity. Qed.

Example isoformat_kolkata :
  timestamp_in kolkata 0 = Return "1970-01-01T05:30:00+05:30".
Proof. vm_compute. reflexivity. Qed.

Example isoformat_odd_offset :
  isoformat {| year := 1971; month := 12; day := 31; hour := 23;
               minute := 15; second := 30; microsecond := 7;
               offset := -2670 |}
  = Return "1971-12-31T23:15:30.000007-00:44:30".
Proof. vm_compute. reflexivity. Qed.

Example parse_rejects_february_30 :
  parse_isoformat "2024-02-30T00:00:00+00:00" = None.
Proof. vm_compute. reflexivity. Qed.

Example now_after_year_9999 :
  now utc (253402300800 * 1000000)
  = Raise (PyExc ValueError "year is out of range").
Proof. vm_compute. reflexivity. Qed.

Example os_path_join_plain : os_path_join "docs" "faq.md" = "docs/faq.md".
Proof. reflexivity. Qed.

Example os_path_join_trailing_sep : os_path_join "docs/" "faq.md" = "docs/faq.md".
Proof. reflexivity. Qed.

Example os_path_join_absolute : os_path_join "docs" "/etc/hosts" = "/etc/hosts".
Proof. reflexivity. Qed.

Example basename_nested : basename "./onboarding_files/policies/faq.md" = "faq.md".
Proof. reflexivity. Qed.

Example walk_onboarding_files :
  walk "./onboarding_files" onboarding_files
  = [ ("./onboarding_files", ["benefits"; "policies"], ["handbook.pdf"]);
      ("./onboarding_files/benefits", [], ["faq.md"; "medical.pdf"]);
      ("./onboarding_files/policies", [], ["faq.md"]) ].
Proof. reflexivity. Qed.

Example websearch_no_results :
  websearch cat_provider "dogs" "us-en" None []
  = (Return (Text "No results found."),
     [CallDDGS; CallText "dogs" "us-en" None]).
Proof. reflexivity. Qed.

Example websearch_ratelimited :
  websearch (failing_provider ratelimited) "cats" "us-en" (Some 3) []
  = (Return (Text "RatelimitException: Please try again after a short delay."),
     [CallDDGS; CallText "cats" "us-en" (Some 3)]).
Proof. reflexivity. Qed.

Example websearch_broken :
  websearch (failing_provider broken) "cats" "us-en" (Some 3) []
  = (Return (Text "Exception: unexpected response"),
     [CallDDGS; CallText "cats" "us-en" (Some 3)]).
Proof. reflexivity. Qed.

(** The last [except] clause names [Exception]: an interrupt of the
    running cell is not one, and passes through [websearch]. *)
Example websearch_interrupted :
  fst (websearch (failing_provider (PyExc KeyboardInterrupt "")) "cats" "us-en" None [])
  = Raise (PyExc KeyboardInterrupt "").
Proof. reflexivity. Qed.

Example create_s3_bucket_output :
  stdout (snd (create_s3_bucket (refusing bucket_taken) "docs" None fresh))
  = ["❌ Failed to create bucket: The requested bucket name is not available."].
Proof. reflexivity. Qed.

End Checks.

(** ** Exception classes *)

Section ClassFacts.

Lemma issubclass_refl c : issubclass c c = true.
Proof. destruct c; reflexivity. Qed.

Lemma issubclass_trans c d e :
  issubclass c d = true -> issubclass d e = true -> issubclass c e = true.
Proof. destruct c, d; try discriminate; destruct e; trivial. Qed.

(** Every rate-limit error is a provider error. *)
Lemma ratelimit_is_provider_error e :
  isinstance e RatelimitException = true ->
  isinstance e DuckDuckGoSearchException = true.
Proof.
  unfold isinstance. intros H.
  apply (issubclass_trans _ RatelimitException); [exact H | reflexivity].
Qed.

Lemma provider_error_is_Exception e :
  isinstance e DuckDuckGoSearchException = true ->
  isinstance e Exception = true.
Proof.
  unfold isinstance. intros H.
  apply (issubclass_trans _ DuckDuckGoSearchException); [exact H | reflexivity].
Qed.

Lemma client_error_isinstance c r op :
  isinstance (BotoClientError c r op) ClientError = true.
Proof. destruct c; reflexivity. Qed.

End ClassFacts.

(** ** Strings *)

Section StringFacts.

Lemma append_String c s t : String c s +:+ t = String c (s +:+ t).
Proof. reflexivity. Qed.

Lemma append_assoc s t u : (s +:+ t) +:+ u = s +:+ (t +:+ u).
Proof.
  induction s as [| c s IH]; [reflexivity |].
  rewrite !append_String, IH. reflexivity.
Qed.

Lemma append_nil_r s : s +:+ "" = s.
Proof. induction s as [| c s IH]; [reflexivity |]. by rewrite append_String, IH. Qed.

End StringFacts.

(** ** [websearch] *)

Section WebsearchFacts.
Import MemoryAgent.
Context (P : Provider).

Lemma websearch_text_raises log keywords region max_results e :
  DDGS_init P log = Return tt ->
  DDGS_text P (log ++ [CallDDGS]) keywords region max_results = Raise e ->
  isinstance e Exception = true ->
  websearch P keywords region max_results log
  = (Return (Text (error_text e)),
     log ++ [CallDDGS; CallText keywords region max_results]).
Proof.
  intros Hinit Htext Hexc.
  unfold websearch, try_except, mbind, M_bind, Py.bind, DDGS, text.
  rewrite Hinit, Htext. cbn [dispatch]. unfold error_text.
  rewrite <- app_assoc. cbn [app].
  destruct (isinstance e RatelimitException) eqn:Hr; [reflexivity |].
  destruct (isinstance e DuckDuckGoSearchException) eqn:Hd; [reflexivity |].
  rewrite Hexc. reflexivity.
Qed.

Lemma websearch_init_raises log keywords region max_results e :
  DDGS_init P log = Raise e ->
  isinstance e Exception = true ->
  websearch P keywords region max_results log
  = (Return (Text (error_text e)), log ++ [CallDDGS]).
Proof.
  intros Hinit Hexc.
  unfold websearch, try_except, mbind, M_bind, Py.bind, DDGS, text.
  rewrite Hinit. cbn [dispatch]. unfold error_text.
  destruct (isinstance e RatelimitException) eqn:Hr; [reflexivity |].
  destruct (isinstance e DuckDuckGoSearchException) eqn:Hd; [reflexivity |].
  rewrite Hexc. reflexivity.
Qed.

Lemma websearch_text_returns log keywords region max_results rs :
  DDGS_init P log = Return tt ->
  DDGS_text P (log ++ [CallDDGS]) keywords region max_results = Return rs ->
  websearch P keywords region max_results log
  = (Return (if truthy rs then Records rs else Text "No results found."),
     log ++ [CallDDGS; CallText keywords region max_results]).
Proof.
  intros Hinit Htext.
  unfold websearch, try_except, mbind, M_bind, Py.bind, DDGS, text.
  rewrite Hinit, Htext. rewrite <- app_assoc. reflexivity.
Qed.

Lemma searches_app log log' :
  searches (log ++ log') = (searches log + searches log')%nat.
Proof. unfold searches. rewrite List.filter_app, length_app. reflexivity. Qed.

(** C2: when the search call raises, [websearch] returns a string whose
    prefix names the kind of failure ("RatelimitException" for a
    rate-limit error, "DuckDuckGoSearchException" for any other provider
    error, "Exception" for every other exception), as an ordinary return
    value, and the log shows exactly one search, the one that failed. *)
Theorem websearch_failure_is_labelled
  log keywords region max_results e :
  DDGS_init P log = Return tt ->
  DDGS_text P (log ++ [CallDDGS]) keywords region max_results = Raise e ->
  isinstance e Exception = true ->
  exists s log',
    websearch P keywords region max_results log = (Return (Text s), log')
    /\ log' = log ++ [CallDDGS; CallText keywords region max_results]
    /\ searches log' = S (searches log)
    /\ (isinstance e RatelimitException = true ->
        String.prefix "RatelimitException" s = true)
    /\ (isinstance e RatelimitException = false ->
        isinstance e DuckDuckGoSearchException = true ->
        String.prefix "DuckDuckGoSearchException" s = true)
    /\ (isinstance e DuckDuckGoSearchException = false ->
        String.prefix "Exception" s = true).
Proof.
  intros Hinit Htext Hexc.
  exists (error_text e), (log ++ [CallDDGS; CallText keywords region max_results]).
  split; [by apply websearch_text_raises |].
  split; [reflexivity |].
  split; [rewrite searches_app; cbn; lia |].
  unfold error_text.
  split; [intros ->; reflexivity |].
  split; [intros -> ->; reflexivity |].
  intros Hd.
  destruct (isinstance e RatelimitException) eqn:Hr.
  - apply ratelimit_is_provider_error in Hr. congruence.
  - rewrite Hd. reflexivity.
Qed.

End WebsearchFacts.

Section WebsearchSuccess.
Import MemoryAgent.
Context (P : Provider).


End WebsearchSuccess.

Section WebsearchWitnesses.
Import MemoryAgent SampleSearches.

Lemma websearch_failure_is_labelled_witness :
exists s log',
  websearch (failing_provider timed_out) "cats" "us-en" None [] = (Return (Text s), log')
  /\ log' = [CallDDGS; CallText "cats" "us-en" None]
  /\ searches log' = 1%nat
  /\ String.prefix "DuckDuckGoSearchException" s = true.
Proof.
destruct (websearch_failure_is_labelled (failing_provider timed_out)
            [] "cats" "us-en" None timed_out
            eq_refl eq_refl eq_refl)
  as (s & log' & Hrun & Hlog & Hcount & _ & Hprovider & _).
exists s, log'. repeat split; auto.
Defined.



End WebsearchWitnesses.

(** ** [current_time] and [current_weather] *)

Section TimeWeatherFacts.
Import Datetime TimeWeather.
Context (tzdata : string -> outcome tzinfo).

(** With the ["UTC"] branch taken, [current_time] formats the clock in
    [timezone.utc] and leaves the world as it was. *)
Lemma current_time_utc_branch timezone w :
  upper timezone = "UTC" ->
  current_time tzdata timezone w = (timestamp_in utc (clock w), w).
Proof.
  intros Hup.
  unfold current_time, mbind, M_bind, Py.bind.
  rewrite Hup. cbn -[now isoformat].
  unfold datetime_now, timestamp_in, lift.
  destruct (now utc (clock w)); reflexivity.
Qed.

(** With the other branch taken and the zone found, it formats the clock
    in that zone; the lookup is logged. *)
Lemma current_time_zone_found timezone z w :
  upper timezone <> "UTC" ->
  tzdata timezone = Return z ->
  current_time tzdata timezone w
  = (timestamp_in z (clock w),
     {| clock := clock w; zone_lookups := zone_lookups w ++ [timezone] |}).
Proof.
  intros Hup Hz.
  unfold current_time, mbind, M_bind, Py.bind.
  destruct (String.eqb_spec (upper timezone) "UTC") as [|_]; [contradiction |].
  unfold ZoneInfo. rewrite Hz. unfold datetime_now, timestamp_in, lift. cbn [clock].
  destruct (now z (clock w)); reflexivity.
Qed.

(** With the zone not found, the exception of [ZoneInfo] leaves
    [current_time] as it is. *)
Lemma current_time_zone_missing timezone e w :
  upper timezone <> "UTC" ->
  tzdata timezone = Raise e ->
  current_time tzdata timezone w
  = (Raise e,
     {| clock := clock w; zone_lookups := zone_lookups w ++ [timezone] |}).
Proof.
  intros Hup Hz.
  unfold current_time, mbind, M_bind, Py.bind.
  destruct (String.eqb_spec (upper timezone) "UTC") as [|_]; [contradiction |].
  unfold ZoneInfo. rewrite Hz. reflexivity.
Qed.

(** C5: [current_weather] returns the string "sunny" for every city, in
    every world, raises nothing and changes nothing. *)
Theorem current_weather_is_sunny (city : string) (w : World) :
  current_weather city w = (Return "sunny", w).
Proof. reflexivity. Qed.

(** The zone [current_time] settles on, as a function of its argument
    alone. *)
Lemma current_time_by_zone timezone :
  exists zone : outcome tzinfo,
    forall w,
      fst (current_time tzdata timezone w)
      = match zone with
        | Return z => timestamp_in z (clock w)
        | Raise e => Raise e
        end.
Proof.
  destruct (decide (upper timezone = "UTC")) as [Hup | Hup].
  - exists (Return utc). intros w. by rewrite current_time_utc_branch.
  - destruct (tzdata timezone) as [z | e] eqn:Hz.
    + exists (Return z). intros w. by rewrite (current_time_zone_found _ z).
    + exists (Raise e). intros w. by rewrite (current_time_zone_missing _ e).
Qed.

(** C6: two calls of [current_weather] with the same city give the same
    result; two calls of [current_time] with the same argument settle on
    the same zone (or fail with the same exception), so their results are
    the formatting of the two clock readings in that one zone, and are
    equal when the readings are. *)
Theorem repeated_calls_agree :
  (forall city w1 w2,
      fst (current_weather city w1) = fst (current_weather city w2))
  /\ (forall timezone, exists zone : outcome tzinfo, forall w,
         fst (current_time tzdata timezone w)
         = match zone with
           | Return z => timestamp_in z (clock w)
           | Raise e => Raise e
           end)
  /\ (forall timezone w1 w2,
         clock w1 = clock w2 ->
         fst (current_time tzdata timezone w1)
         = fst (current_time tzdata timezone w2)).
Proof.
  split; [reflexivity |].
  split; [exact current_time_by_zone |].
  intros timezone w1 w2 Hclock.
  destruct (current_time_by_zone timezone) as [zone Hzone].
  rewrite !Hzone, Hclock. reflexivity.
Qed.

(** C8: a [timezone] whose upper-case form is "UTC" makes [current_time]
    use [timezone.utc]: no [ZoneInfo] lookup is logged, and result and
    world are those of [current_time("UTC")] in the same world. *)
Theorem current_time_utc_any_case timezone w :
  upper timezone = "UTC" ->
  current_time tzdata timezone w = current_time tzdata "UTC" w
  /\ fst (current_time tzdata timezone w) = timestamp_in utc (clock w)
  /\ zone_lookups (snd (current_time tzdata timezone w)) = zone_lookups w.
Proof.
  intros Hup.
  rewrite (current_time_utc_branch timezone w Hup).
  rewrite (current_time_utc_branch "UTC" w eq_refl).
  repeat split.
Qed.

End TimeWeatherFacts.

Section TimeWeatherWitnesses.
Import Datetime TimeWeather SampleZones.

Lemma repeated_calls_agree_witness :
  fst (current_weather "Seattle" noon) = fst (current_weather "Seattle" winter_noon)
  /\ fst (current_time sample_tzdata "America/Los_Angeles" noon)
     = Return "2024-06-01T05:00:00.123456-07:00"
  /\ fst (current_time sample_tzdata "America/Los_Angeles" winter_noon)
     = Return "2024-12-01T04:00:00-08:00"
  /\ fst (current_time sample_tzdata "America/Los_Angeles" noon)
     = fst (current_time sample_tzdata "America/Los_Angeles"
              {| clock := clock noon; zone_lookups := ["Asia/Kolkata"] |}).
Proof.
  destruct (repeated_calls_agree sample_tzdata) as (Hweather & _ & Htime).
  split; [apply Hweather |].
  split; [vm_compute; reflexivity |].
  split; [vm_compute; reflexivity |].
  apply Htime. reflexivity.
Defined.

Lemma current_time_utc_any_case_witness :
  current_time sample_tzdata "Utc" noon = current_time sample_tzdata "UTC" noon
  /\ fst (current_time sample_tzdata "Utc" noon)
     = Return "2024-06-01T12:00:00.123456+00:00"
  /\ zone_lookups (snd (current_time sample_tzdata "Utc" noon)) = [].
Proof.
  destruct (current_time_utc_any_case sample_tzdata "Utc" noon eq_refl)
    as (Hsame & Hres & Hlog).
  split; [exact Hsame |].
  split; [rewrite Hres; vm_compute; reflexivity | exact Hlog].
Defined.

End TimeWeatherWitnesses.

(** ** [create_s3_bucket] *)

Section CreateBucketFacts.
Import KnowledgeBase KnowledgeBaseSpec.
Context (aws : AWS).

Lemma region_branch bucket_name region :
  (if is_None region || bool_decide (region = Some "us-east-1")
   then create_bucket aws bucket_name None
   else create_bucket aws bucket_name region)
  = create_bucket aws bucket_name (location_constraint region).
Proof.
  destruct region as [r |]; [| reflexivity]. cbn.
  destruct (String.eqb_spec r "us-east-1") as [-> | Hne].
  - rewrite bool_decide_eq_true_2 by reflexivity. reflexivity.
  - rewrite bool_decide_eq_false_2 by congruence. reflexivity.
Qed.

Lemma create_s3_bucket_created bucket_name region w :
  client_response aws w "s3" region = Return tt ->
  create_bucket_response aws (log_call (CallClient "s3" region) w)
    bucket_name (location_constraint region) = Return tt ->
  create_s3_bucket aws bucket_name region w
  = (Return tt, add_line (success_line bucket_name)
                         (after_create bucket_name region w)).
Proof.
  intros Hclient Hcreate.
  unfold create_s3_bucket. rewrite region_branch.
  unfold mbind, M_bind, Py.bind, try_except, boto3_client, create_bucket.
  rewrite Hclient, Hcreate. reflexivity.
Qed.

Lemma create_s3_bucket_client_error bucket_name region w c r op :
  client_response aws w "s3" region = Return tt ->
  create_bucket_response aws (log_call (CallClient "s3" region) w)
    bucket_name (location_constraint region) = Raise (BotoClientError c r op) ->
  create_s3_bucket aws bucket_name region w
  = (Return tt, add_line (failure_line (Error_Message r))
                         (after_create bucket_name region w)).
Proof.
  intros Hclient Hcreate.
  unfold create_s3_bucket. rewrite region_branch.
  unfold mbind, M_bind, Py.bind, try_except, boto3_client, create_bucket.
  rewrite Hclient, Hcreate. cbn [dispatch].
  rewrite client_error_isinstance. reflexivity.
Qed.

Lemma create_s3_bucket_other_error bucket_name region w e :
  client_response aws w "s3" region = Return tt ->
  create_bucket_response aws (log_call (CallClient "s3" region) w)
    bucket_name (location_constraint region) = Raise e ->
  isinstance e ClientError = false ->
  create_s3_bucket aws bucket_name region w
  = (Raise e, after_create bucket_name region w).
Proof.
  intros Hclient Hcreate Hother.
  unfold create_s3_bucket. rewrite region_branch.
  unfold mbind, M_bind, Py.bind, try_except, boto3_client, create_bucket.
  rewrite Hclient, Hcreate. cbn [dispatch]. rewrite Hother. reflexivity.
Qed.

End CreateBucketFacts.

Section CreateBucketClaims.
Import KnowledgeBase KnowledgeBaseSpec.
Context (aws : AWS).

Lemma bucket_creations_app log log' :
  bucket_creations (log ++ log')
  = (bucket_creations log + bucket_creations log')%nat.
Proof.
  unfold bucket_creations. rewrite List.filter_app, length_app. reflexivity.
Qed.

Lemma location_constraint_None region :
  location_constraint region = None
  <-> region = None \/ region = Some "us-east-1".
Proof.
  destruct region as [r |]; cbn; [| tauto].
  destruct (String.eqb_spec r "us-east-1") as [-> | Hne].
  - tauto.
  - split; [discriminate |]. intros [H | H]; congruence.
Qed.

Lemma location_constraint_Some region :
  location_constraint region <> None -> location_constraint region = region.
Proof.
  destruct region as [r |]; cbn; [| congruence].
  destruct (String.eqb r "us-east-1"); congruence.
Qed.

(** C7, as the code has it: once the client is built, [create_s3_bucket]
    issues exactly one create-bucket call, without a location constraint
    for no region and for us-east-1 and with the region as constraint
    otherwise; it returns [None] when the call returns and when it raises
    a client error, whose message it prints; any other exception of the
    call leaves the function unchanged. *)
Theorem create_s3_bucket_one_call_by_region bucket_name region w :
  client_response aws w "s3" region = Return tt ->
  let run := create_s3_bucket aws bucket_name region w in
  let response :=
    create_bucket_response aws (log_call (CallClient "s3" region) w)
      bucket_name (location_constraint region) in
  calls (snd run)
  = calls w ++ [CallClient "s3" region;
                CallCreateBucket bucket_name (location_constraint region)]
  /\ bucket_creations (calls (snd run)) = S (bucket_creations (calls w))
  /\ (location_constraint region = None
      <-> region = None \/ region = Some "us-east-1")
  /\ (location_constraint region <> None ->
      location_constraint region = region)
  /\ (response = Return tt -> fst run = Return tt)
  /\ (forall c r op,
         response = Raise (BotoClientError c r op) ->
         fst run = Return tt
         /\ stdout (snd run) = stdout w ++ [failure_line (Error_Message r)])
  /\ (forall e,
         response = Raise e -> isinstance e ClientError = false ->
         fst run = Raise e).
Proof.
  intros Hclient run response.
  assert (Hcalls : calls (snd run)
                   = calls w ++ [CallClient "s3" region;
                                 CallCreateBucket bucket_name
                                   (location_constraint region)]).
  { subst run. unfold create_s3_bucket. rewrite region_branch.
    unfold mbind, M_bind, Py.bind, try_except, boto3_client, create_bucket.
    rewrite Hclient. fold response.
    destruct response as [[] | e]; cbn [dispatch].
    - cbn. by rewrite <- app_assoc.
    - destruct (isinstance e ClientError); [| cbn; by rewrite <- app_assoc].
      destruct e; cbn; by rewrite <- app_assoc. }
  split; [exact Hcalls |].
  split; [rewrite Hcalls, bucket_creations_app; cbn; lia |].
  split; [apply location_constraint_None |].
  split; [apply location_constraint_Some |].
  split; [| split].
  - intros Hresp. subst run.
    by rewrite (create_s3_bucket_created aws _ _ _ Hclient Hresp).
  - intros c r op Hresp. subst run.
    by rewrite (create_s3_bucket_client_error aws _ _ _ c r op Hclient Hresp).
  - intros e Hresp Hother. subst run.
    by rewrite (create_s3_bucket_other_error aws _ _ _ e Hclient Hresp Hother).
Qed.

(** C9: once the client is built, [create_s3_bucket] issues the one
    create-bucket call inside the [try] statement and returns [None]
    whether that call returns or raises a [ClientError], of whatever
    class and for whatever operation.  The return value and the calls
    logged are the same in both cases; only the line printed tells them
    apart: the success line when the call returned, the failure line
    with the message of the error response when it raised.  Nothing else
    is printed, and neither the local files nor the objects in S3 are
    touched. *)
Theorem create_s3_bucket_swallows_client_errors bucket_name region w :
  client_response aws w "s3" region = Return tt ->
  let response :=
    create_bucket_response aws (log_call (CallClient "s3" region) w)
      bucket_name (location_constraint region) in
  let run := create_s3_bucket aws bucket_name region w in
  let issued :=
    calls w ++ [CallClient "s3" region;
                CallCreateBucket bucket_name (location_constraint region)] in
  (response = Return tt ->
     fst run = Return tt
     /\ calls (snd run) = issued
     /\ stdout (snd run) = stdout w ++ [success_line bucket_name]
     /\ trees (snd run) = trees w
     /\ objects (snd run) = objects w)
  /\ (forall c r op,
        response = Raise (BotoClientError c r op) ->
        fst run = Return tt
        /\ calls (snd run) = issued
        /\ stdout (snd run) = stdout w ++ [failure_line (Error_Message r)]
        /\ trees (snd run) = trees w
        /\ objects (snd run) = objects w).
Proof.
  intros Hclient response run issued. subst response run issued. split.
  - intros Hok.
    rewrite (create_s3_bucket_created aws _ _ _ Hclient Hok). cbn.
    rewrite <- app_assoc. repeat split.
  - intros c r op Herr.
    rewrite (create_s3_bucket_client_error aws _ _ _ c r op Hclient Herr). cbn.
    rewrite <- app_assoc. repeat split.
Qed.

End CreateBucketClaims.

Section CreateBucketWitnesses.
Import KnowledgeBase KnowledgeBaseSpec SampleBuckets.

(** C7 as stated fails: for a region other than us-east-1 the call sent
    differs from the unconditional one, and a client error that the
    single call would pass on is turned into a normal return. *)
Lemma create_s3_bucket_is_not_a_single_call :
  calls (snd (create_s3_bucket obliging "docs" (Some "eu-west-1") fresh))
  <> calls (snd (create_s3_bucket_spec obliging "docs" (Some "eu-west-1") fresh))
  /\ fst (create_s3_bucket (refusing bucket_taken) "docs" None fresh) = Return tt
  /\ fst (create_s3_bucket_spec (refusing bucket_taken) "docs" None fresh)
     = Raise bucket_taken.
Proof. split; [discriminate | split; reflexivity]. Qed.

Lemma create_s3_bucket_one_call_by_region_witness :
  calls (snd (create_s3_bucket (refusing unreachable) "docs" (Some "eu-west-1") fresh))
  = [CallClient "s3" (Some "eu-west-1");
     CallCreateBucket "docs" (Some "eu-west-1")]
  /\ fst (create_s3_bucket (refusing unreachable) "docs" (Some "eu-west-1") fresh)
     = Raise unreachable.
Proof.
  destruct (create_s3_bucket_one_call_by_region (refusing unreachable)
              "docs" (Some "eu-west-1") fresh eq_refl)
    as (Hcalls & _ & _ & _ & _ & _ & Hother).
  split; [exact Hcalls |].
  apply Hother; reflexivity.
Defined.

Lemma create_s3_bucket_swallows_client_errors_witness :
  fst (create_s3_bucket (refusing bucket_taken) "docs" None fresh) = Return tt
  /\ calls (snd (create_s3_bucket (refusing bucket_taken) "docs" None fresh))
     = [CallClient "s3" None; CallCreateBucket "docs" None]
  /\ stdout (snd (create_s3_bucket (refusing bucket_taken) "docs" None fresh))
     = ["❌ Failed to create bucket: The requested bucket name is not available."]
  /\ trees (snd (create_s3_bucket (refusing bucket_taken) "docs" None fresh))
     = trees fresh
  /\ objects (snd (create_s3_bucket (refusing bucket_taken) "docs" None fresh))
     = objects fresh.
Proof.
  destruct (create_s3_bucket_swallows_client_errors (refusing bucket_taken)
              "docs" None fresh eq_refl)
    as [_ Hraised].
  exact (Hraised BucketAlreadyExistsError
           {| Error_Code := "BucketAlreadyExists";
              Error_Message := "The requested bucket name is not available." |}
           "CreateBucket" eq_refl).
Defined.

End CreateBucketWitnesses.

(** ** [upload_directory] *)

Section UploadFacts.
Import KnowledgeBase KnowledgeBaseSpec.
Context (aws : AWS).
Hypothesis uploads_succeed :
  forall w Filename Bucket Key,
    upload_file_response aws w Filename Bucket Key = Return tt.

Lemma after_uploads_nil bucket_name w : after_uploads bucket_name [] w = w.
Proof.
  destruct w. unfold after_uploads. cbn. by rewrite !app_nil_r.
Qed.

Lemma after_uploads_app bucket_name l1 l2 w :
  after_uploads bucket_name (l1 ++ l2) w
  = after_uploads bucket_name l2 (after_uploads bucket_name l1 w).
Proof.
  unfold after_uploads, objects_after. cbn.
  rewrite !map_app, !app_assoc, foldl_app. reflexivity.
Qed.

(** One round of the inner loop. *)
Lemma upload_one bucket_name root file w :
  (print ("uploading file " +:+ os_path_join root file +:+ " to " +:+ bucket_name);;
   upload_file aws (os_path_join root file) bucket_name file) w
  = (Return tt, after_uploads bucket_name [(root, file)] w).
Proof.
  unfold mbind, M_bind, Py.bind, print, upload_file.
  rewrite uploads_succeed. reflexivity.
Qed.

(** The inner loop over the files of one directory. *)
Lemma upload_files_of_directory bucket_name root files w :
  for_each files (fun file =>
    let file_to_upload := os_path_join root file in
    print ("uploading file " +:+ file_to_upload +:+ " to " +:+ bucket_name);;
    upload_file aws file_to_upload bucket_name file) w
  = (Return tt, after_uploads bucket_name (map (pair root) files) w).
Proof.
  revert w. induction files as [| file files IH]; intros w.
  - cbn. by rewrite after_uploads_nil.
  - cbn [for_each map].
    change ((root, file) :: map (pair root) files)
      with ([(root, file)] ++ map (pair root) files).
    rewrite after_uploads_app.
    unfold mbind at 1, M_bind at 1, Py.bind at 1. cbv zeta.
    rewrite upload_one. apply IH.
Qed.

(** The outer loop over the triples of the walk. *)
Lemma upload_triples bucket_name triples w :
  for_each triples (fun '(root, dirs, files) =>
    for_each files (fun file =>
      let file_to_upload := os_path_join root file in
      print ("uploading file " +:+ file_to_upload +:+ " to " +:+ bucket_name);;
      upload_file aws file_to_upload bucket_name file)) w
  = (Return tt, after_uploads bucket_name (walk_files triples) w).
Proof.
  revert w. induction triples as [| [[root dirs] files] triples IH]; intros w.
  - cbn. by rewrite after_uploads_nil.
  - cbn [for_each walk_files flat_map].
    rewrite after_uploads_app.
    unfold mbind at 1, M_bind at 1, Py.bind at 1.
    rewrite upload_files_of_directory. apply IH.
Qed.

Lemma upload_directory_run path bucket_name tree w :
  trees w !! path = Some tree ->
  upload_directory aws path bucket_name w
  = (Return tt, after_uploads bucket_name (walk_files (walk path tree)) w).
Proof.
  intros Htree. unfold upload_directory.
  unfold mbind at 1, M_bind at 1, Py.bind at 1, os_walk.
  rewrite Htree. apply upload_triples.
Qed.

End UploadFacts.

Section WalkFacts.
Import KnowledgeBase KnowledgeBaseSpec.

Lemma walk_files_app l1 l2 :
  walk_files (l1 ++ l2) = walk_files l1 ++ walk_files l2.
Proof. unfold walk_files. apply flat_map_app. Qed.

Lemma walk_files_Dir top entries :
  walk_files (walk top (Dir entries))
  = map (pair top) (filenames entries)
    ++ walk_files (flat_map (fun e => let '(name, child) := e in
                                      walk (os_path_join top name) child)
                            entries).
Proof. reflexivity. Qed.

Lemma file_is_listed name entries :
  (name, File) ∈ entries -> name ∈ filenames entries.
Proof.
  intros Hin. apply list_elem_of_In. unfold filenames.
  change name with (fst (name, File)). apply in_map.
  apply filter_In. split; [by apply list_elem_of_In | reflexivity].
Qed.

Lemma walk_files_of_child top entries d child rf :
  (d, child) ∈ entries ->
  rf ∈ walk_files (walk (os_path_join top d) child) ->
  rf ∈ walk_files (walk top (Dir entries)).
Proof.
  intros Hin Hrf. rewrite walk_files_Dir. apply elem_of_app. right.
  apply list_elem_of_In in Hin.
  induction entries as [| [name n] entries IH]; [destruct Hin |].
  cbn [flat_map]. rewrite walk_files_app. apply elem_of_app.
  destruct Hin as [[= -> ->] | Hin]; [by left | right; by apply IH].
Qed.

(** Induction over trees, with the hypothesis for every entry of a
    directory. *)
Lemma node_induction (Q : node -> Prop) :
  Q File ->
  (forall entries, Forall (fun e => Q e.2) entries -> Q (Dir entries)) ->
  forall n, Q n.
Proof.
  intros HFile HDir. fix IH 1. intros [| entries].
  - exact HFile.
  - apply HDir. induction entries as [| [name child] entries IHentries].
    + constructor.
    + constructor; [apply IH | exact IHentries].
Qed.

(** Whatever the walk lists is a file of the tree. *)
Lemma walk_lists_files_only n : forall top root name,
  (root, name) ∈ walk_files (walk top n) -> file_in top n root name.
Proof.
  induction n as [| entries IH] using node_induction;
    intros top root name Hin.
  - cbn in Hin. by apply elem_of_nil in Hin.
  - rewrite walk_files_Dir in Hin. apply elem_of_app in Hin.
    destruct Hin as [Hhere | Hbelow].
    + apply list_elem_of_In, in_map_iff in Hhere.
      destruct Hhere as (file & [= <- <-] & Hfile).
      unfold filenames in Hfile. apply in_map_iff in Hfile.
      destruct Hfile as ([name n] & <- & Hentry).
      apply filter_In in Hentry. destruct Hentry as [Hentry Hfile].
      destruct n; [| discriminate].
      apply file_here. by apply list_elem_of_In.
    + induction IH as [| [d child] entries Hchild _ IHentries].
      * cbn in Hbelow. by apply elem_of_nil in Hbelow.
      * cbn [flat_map] in Hbelow. rewrite walk_files_app in Hbelow.
        apply elem_of_app in Hbelow. destruct Hbelow as [Hfirst | Hrest].
        -- apply (file_below top _ d child); [apply list_elem_of_here |].
           by apply Hchild.
        -- specialize (IHentries Hrest).
           inversion IHentries as [? ? ? Hentry | ? ? d' child' ? ? Hentry Hsub];
             subst.
           ++ apply file_here. by apply list_elem_of_further.
           ++ apply (file_below top _ d' child'); [| exact Hsub].
              by apply list_elem_of_further.
Qed.

(** [os.walk] reaches every file of the tree. *)
Lemma walk_reaches_every_file top n root name :
  file_in top n root name -> (root, name) ∈ walk_files (walk top n).
Proof.
  induction 1 as [top entries name Hin | top entries d child root name Hin _ IH].
  - rewrite walk_files_Dir. apply elem_of_app. left.
    apply list_elem_of_In. apply in_map. apply list_elem_of_In.
    by apply file_is_listed.
  - by apply (walk_files_of_child top entries d child).
Qed.

Lemma has_sep_app a b : has_sep (a +:+ b) = has_sep a || has_sep b.
Proof.
  induction a as [| c a IH]; [reflexivity |].
  change (String c a +:+ b) with (String c (a +:+ b)).
  cbn [has_sep]. rewrite IH. apply orb_assoc.
Qed.

Lemma basename_no_sep p : has_sep p = false -> basename p = p.
Proof.
  destruct p as [| c p]; [reflexivity |].
  cbn [has_sep basename]. intros Hsep. apply orb_false_elim in Hsep.
  destruct Hsep as [-> ->]. reflexivity.
Qed.

(** After a separator, a name without separators is the base name. *)
Lemma basename_after_sep a b :
  has_sep b = false -> basename (a +:+ "/" +:+ b) = b.
Proof.
  intros Hb. induction a as [| c a IH].
  - change ("" +:+ "/" +:+ b) with (String "/" b).
    cbn [basename]. rewrite Hb. reflexivity.
  - change (String c a +:+ "/" +:+ b) with (String c (a +:+ "/" +:+ b)).
    cbn [basename]. rewrite has_sep_app.
    change (has_sep ("/" +:+ b)) with (true || has_sep b).
    rewrite orb_true_r. exact IH.
Qed.

(** A path whose last character is the separator. *)
Lemma ends_with_sep a :
  String.eqb (String.substring (String.length a - 1) 1 a) "/" = true ->
  exists a', a = a' +:+ "/".
Proof.
  induction a as [| c a IH]; [discriminate |].
  destruct a as [| c' a].
  - cbn. destruct (Ascii.eqb_spec c "/") as [-> | _]; [| discriminate].
    intros _. by exists "".
  - intros Hlast. destruct IH as [a' Ha'].
    + revert Hlast. cbn [String.length String.substring Nat.sub].
      by rewrite Nat.sub_0_r.
    + exists (String c a'). rewrite Ha'. reflexivity.
Qed.

(** The key [upload_directory] uses is the base name of the path it
    uploads. *)
Lemma basename_os_path_join root name :
  has_sep name = false -> basename (os_path_join root name) = name.
Proof.
  intros Hname. unfold os_path_join.
  destruct (String.prefix "/" name) eqn:Hprefix.
  { destruct name as [| c name]; [discriminate |].
    cbn [String.prefix] in Hprefix. cbn [has_sep] in Hname.
    destruct (Ascii.ascii_dec "/" c) as [<- | _]; [| discriminate].
    rewrite Ascii.eqb_refl in Hname. discriminate. }
  destruct (String.eqb_spec root "") as [-> | Hroot]; cbn [orb].
  { by apply basename_no_sep. }
  destruct (String.eqb _ "/") eqn:Hlast.
  - apply ends_with_sep in Hlast. destruct Hlast as [root' ->].
    rewrite append_assoc. by apply basename_after_sep.
  - by apply basename_after_sep.
Qed.

(** The object under a key is the last file uploaded to it. *)
Lemma objects_after_last bucket_name pre root name post objs :
  name ∉ map snd post ->
  objects_after bucket_name (pre ++ (root, name) :: post) objs
    !! (bucket_name, name)
  = Some (os_path_join root name).
Proof.
  intros Hlast. unfold objects_after. rewrite foldl_app. cbn [foldl].
  generalize (foldl (fun o rf => <[(bucket_name, rf.2) := os_path_join rf.1 rf.2]> o)
                    objs pre).
  intros o.
  assert (Hstart : (<[(bucket_name, name) := os_path_join root name]> o)
                     !! (bucket_name, name) = Some (os_path_join root name))
    by apply lookup_insert_eq.
  revert Hstart. cbn [fst snd].
  generalize (<[(bucket_name, name) := os_path_join root name]> o).
  induction post as [| [r n] post IH]; intros o' Ho'; [exact Ho' |].
  cbn [foldl]. apply IH.
  - intros Hin. apply Hlast. cbn [map]. by apply list_elem_of_further.
  - cbn [fst snd]. rewrite lookup_insert_ne; [exact Ho' |].
    intros [= ->]. apply Hlast. cbn [map snd]. apply list_elem_of_here.
Qed.

Lemma upload_is_logged bucket_name files w root name :
  (root, name) ∈ files ->
  CallUploadFile (os_path_join root name) bucket_name name
    ∈ calls (after_uploads bucket_name files w).
Proof.
  intros Hin. cbn [after_uploads calls]. apply elem_of_app. right.
  apply list_elem_of_In.
  change (CallUploadFile (os_path_join root name) bucket_name name)
    with (upload_call bucket_name (root, name)).
  apply in_map. by apply list_elem_of_In.
Qed.

End WalkFacts.

Section UploadClaims.
Import KnowledgeBase KnowledgeBaseSpec.
Context (aws : AWS).

(** C10: when the uploads succeed, [upload_directory] uploads the files
    of the tree, all of them and nothing else, each under its bare name
    as the key (the base name of the path uploaded), whatever directory
    it is in; of two files with the same name in different directories
    both are uploaded to that one key, and the object left under it is
    the one uploaded later. *)
Theorem upload_directory_keys_are_base_names path bucket_name tree w :
  (forall w' Filename Bucket Key,
      upload_file_response aws w' Filename Bucket Key = Return tt) ->
  trees w !! path = Some tree ->
  let files := walk_files (walk path tree) in
  let run := upload_directory aws path bucket_name w in
  fst run = Return tt
  /\ calls (snd run)
     = calls w
       ++ map (fun rf => CallUploadFile (os_path_join rf.1 rf.2) bucket_name rf.2)
              files
  /\ (forall root name,
         (root, name) ∈ files <-> file_in path tree root name)
  /\ (forall root name,
         file_in path tree root name ->
         CallUploadFile (os_path_join root name) bucket_name name
           ∈ calls (snd run)
         /\ (has_sep name = false ->
             basename (os_path_join root name) = name))
  /\ (forall l1 r1 l2 r2 l3 name,
         files = l1 ++ (r1, name) :: l2 ++ (r2, name) :: l3 ->
         name ∉ map snd l3 ->
         CallUploadFile (os_path_join r1 name) bucket_name name ∈ calls (snd run)
         /\ CallUploadFile (os_path_join r2 name) bucket_name name ∈ calls (snd run)
         /\ objects (snd run) !! (bucket_name, name)
            = Some (os_path_join r2 name)).
Proof.
  intros Hok Htree files run.
  subst run. rewrite (upload_directory_run aws Hok _ _ _ _ Htree).
  fold files. cbn [fst snd].
  split; [reflexivity |].
  split; [reflexivity |].
  split.
  { intros root name. split.
    - apply walk_lists_files_only.
    - apply walk_reaches_every_file. }
  split.
  - intros root name Hfile. split.
    + apply upload_is_logged. by apply walk_reaches_every_file.
    + apply basename_os_path_join.
  - intros l1 r1 l2 r2 l3 name Hfiles Hlast.
    split; [| split].
    + apply upload_is_logged. rewrite Hfiles.
      apply elem_of_app. right. apply list_elem_of_here.
    + apply upload_is_logged. rewrite Hfiles.
      apply elem_of_app. right. apply list_elem_of_further.
      apply elem_of_app. right. apply list_elem_of_here.
    + cbn [after_uploads objects]. rewrite Hfiles.
      replace (l1 ++ (r1, name) :: l2 ++ (r2, name) :: l3)
        with ((l1 ++ (r1, name) :: l2) ++ (r2, name) :: l3)
        by (by rewrite <- app_assoc).
      by apply objects_after_last.
Qed.

End UploadClaims.

Section UploadWitnesses.
Import KnowledgeBase KnowledgeBaseSpec SampleBuckets.

Lemma upload_directory_keys_are_base_names_witness :
  fst (upload_directory obliging "./onboarding_files" "docs" fresh) = Return tt
  /\ calls (snd (upload_directory obliging "./onboarding_files" "docs" fresh))
     = [ CallUploadFile "./onboarding_files/handbook.pdf" "docs" "handbook.pdf";
         CallUploadFile "./onboarding_files/benefits/faq.md" "docs" "faq.md";
         CallUploadFile "./onboarding_files/benefits/medical.pdf" "docs" "medical.pdf";
         CallUploadFile "./onboarding_files/policies/faq.md" "docs" "faq.md" ]
  /\ objects (snd (upload_directory obliging "./onboarding_files" "docs" fresh))
       !! ("docs", "faq.md")
     = Some "./onboarding_files/policies/faq.md".
Proof.
  destruct (upload_directory_keys_are_base_names obliging
              "./onboarding_files" "docs" onboarding_files fresh
              (fun _ _ _ _ => eq_refl) eq_refl)
    as (Hret & Hcalls & _ & _ & Hsame).
  split; [exact Hret |].
  split; [exact Hcalls |].
  apply (Hsame [("./onboarding_files", "handbook.pdf")]
               "./onboarding_files/benefits"
               [("./onboarding_files/benefits", "medical.pdf")]
               "./onboarding_files/policies" [] "faq.md").
  - reflexivity.
  - cbn. apply not_elem_of_nil.
Defined.

End UploadWitnesses.

(** ** The calendar of [datetime] *)

Section CalendarFacts.
Import Datetime.

(** Years counted from 0 in blocks of 400, 100, 4 and 1. *)
Lemma days_before_year_blocks q n100 n4 n1 :
  0 <= n100 <= 3 -> 0 <= n4 <= 24 -> 0 <= n1 <= 3 ->
  days_before_year (400 * q + 100 * n100 + 4 * n4 + n1 + 1)
  = 146097 * q + 36524 * n100 + 1461 * n4 + 365 * n1.
Proof.
  intros H100 H4 H1. unfold days_before_year. cbv zeta.
  replace (400 * q + 100 * n100 + 4 * n4 + n1 + 1 - 1)
    with (400 * q + 100 * n100 + 4 * n4 + n1) by lia.
  assert (E4 : (400 * q + 100 * n100 + 4 * n4 + n1) / 4
               = 100 * q + 25 * n100 + n4).
  { symmetry. apply (Z.div_unique _ 4 _ n1); lia. }
  assert (E100 : (400 * q + 100 * n100 + 4 * n4 + n1) / 100 = 4 * q + n100).
  { symmetry. apply (Z.div_unique _ 100 _ (4 * n4 + n1)); lia. }
  assert (E400 : (400 * q + 100 * n100 + 4 * n4 + n1) / 400 = q).
  { symmetry. apply (Z.div_unique _ 400 _ (100 * n100 + 4 * n4 + n1)); lia. }
  rewrite E4, E100, E400. lia.
Qed.

Lemma is_leap_blocks q n100 n4 n1 :
  0 <= n100 <= 3 -> 0 <= n4 <= 24 -> 0 <= n1 <= 3 ->
  is_leap (400 * q + 100 * n100 + 4 * n4 + n1 + 1)
  = (n1 =? 3) && (negb (n4 =? 24) || (n100 =? 3)).
Proof.
  intros H100 H4 H1. unfold is_leap.
  set (y := 400 * q + 100 * n100 + 4 * n4 + n1 + 1).
  assert (E4 : y mod 4 = (n1 + 1) mod 4).
  { subst y. replace (400 * q + 100 * n100 + 4 * n4 + n1 + 1)
      with ((n1 + 1) + (100 * q + 25 * n100 + n4) * 4) by lia.
    apply Z.mod_add. lia. }
  assert (E100 : y mod 100 = (4 * n4 + n1 + 1) mod 100).
  { subst y. replace (400 * q + 100 * n100 + 4 * n4 + n1 + 1)
      with ((4 * n4 + n1 + 1) + (4 * q + n100) * 100) by lia.
    apply Z.mod_add. lia. }
  assert (E400 : y mod 400 = (100 * n100 + 4 * n4 + n1 + 1) mod 400).
  { subst y. replace (400 * q + 100 * n100 + 4 * n4 + n1 + 1)
      with ((100 * n100 + 4 * n4 + n1 + 1) + q * 400) by lia.
    apply Z.mod_add. lia. }
  rewrite E4, E100, E400.
  destruct (Z.eqb_spec n1 3) as [-> | Hn1].
  - cbn [andb]. replace ((3 + 1) mod 4) with 0 by reflexivity. cbn [Z.eqb andb].
    destruct (Z.eqb_spec n4 24) as [-> | Hn4].
    + replace ((4 * 24 + 3 + 1) mod 100) with 0 by reflexivity. cbn [Z.eqb negb orb].
      destruct (Z.eqb_spec n100 3) as [-> | Hn100]; [reflexivity |].
      assert (Hs : 100 * n100 + 4 * 24 + 3 + 1 = 100 * (n100 + 1)) by lia.
      rewrite Hs.
      assert (n100 = 0 \/ n100 = 1 \/ n100 = 2) as [-> | [-> | ->]] by lia; reflexivity.
    + cbn [negb orb].
      rewrite (Z.mod_small (4 * n4 + 3 + 1) 100) by lia.
      destruct (Z.eqb_spec (4 * n4 + 3 + 1) 0); [lia | reflexivity].
  - cbn [andb].
    rewrite (Z.mod_small (n1 + 1) 4) by lia.
    destruct (Z.eqb_spec (n1 + 1) 0); [lia | reflexivity].
Qed.

(** A check that succeeds on each of [0], ..., [k - 1] holds below [k]. *)
Lemma checked_below (p : Z -> bool) (k : nat) :
  forallb p (map Z.of_nat (seq 0 k)) = true ->
  forall n, 0 <= n < Z.of_nat k -> p n = true.
Proof.
  intros Hall n Hn.
  apply (proj1 (forallb_forall _ _) Hall).
  rewrite <- (Z2Nat.id n) by lia.
  apply in_map, in_seq. lia.
Qed.

Lemma month_day_spec n leapyear :
  0 <= n < 365 -> month_day_ok leapyear n = true.
Proof.
  intros Hn.
  destruct leapyear;
    apply (checked_below _ 365); try exact Hn; vm_compute; reflexivity.
Qed.

Lemma ord2ymd_unfold n :
  ord2ymd n =
  let n0 := n - 1 in
  let n400 := n0 / 146097 in
  let r := n0 mod 146097 in
  let n100 := r / 36524 in
  let r1 := r mod 36524 in
  let n4 := r1 / 1461 in
  let r2 := r1 mod 1461 in
  let n1 := r2 / 365 in
  let r3 := r2 mod 365 in
  let year := n400 * 400 + 1 + n100 * 100 + n4 * 4 + n1 in
  if (n1 =? 4) || (n100 =? 4) then (year - 1, 12, 31)
  else
    let '(m, d) :=
      month_day r3 ((n1 =? 3) && (negb (n4 =? 24) || (n100 =? 3))) in
    (year, m, d).
Proof.
  unfold ord2ymd, month_day, DI400Y, DI100Y, DI4Y. cbv zeta.
  destruct (_ || _); [reflexivity |].
  destruct (_ >? _); reflexivity.
Qed.

(** The blocks [ord2ymd] splits an ordinal into. *)
Lemma ordinal_blocks n :
  exists q n100 n4 n1 r3,
    n - 1 = 146097 * q + 36524 * n100 + 1461 * n4 + 365 * n1 + r3
    /\ q = (n - 1) / 146097
    /\ n100 = (n - 1) mod 146097 / 36524
    /\ n4 = (n - 1) mod 146097 mod 36524 / 1461
    /\ n1 = (n - 1) mod 146097 mod 36524 mod 1461 / 365
    /\ r3 = (n - 1) mod 146097 mod 36524 mod 1461 mod 365
    /\ 0 <= 36524 * n100 + 1461 * n4 + 365 * n1 + r3 < 146097
    /\ 0 <= 1461 * n4 + 365 * n1 + r3 < 36524
    /\ 0 <= 365 * n1 + r3 < 1461
    /\ 0 <= r3 < 365
    /\ 0 <= n100 /\ 0 <= n4 /\ 0 <= n1.
Proof.
  set (n0 := n - 1).
  pose proof (Z.div_mod n0 146097 ltac:(lia)) as E0.
  pose proof (Z.mod_pos_bound n0 146097 ltac:(lia)) as B0.
  set (r := n0 mod 146097) in *.
  pose proof (Z.div_mod r 36524 ltac:(lia)) as E1.
  pose proof (Z.mod_pos_bound r 36524 ltac:(lia)) as B1.
  set (r1 := r mod 36524) in *.
  pose proof (Z.div_mod r1 1461 ltac:(lia)) as E2.
  pose proof (Z.mod_pos_bound r1 1461 ltac:(lia)) as B2.
  set (r2 := r1 mod 1461) in *.
  pose proof (Z.div_mod r2 365 ltac:(lia)) as E3.
  pose proof (Z.mod_pos_bound r2 365 ltac:(lia)) as B3.
  set (r3 := r2 mod 365) in *.
  assert (0 <= r / 36524) by (apply Z.div_pos; lia).
  assert (0 <= r1 / 1461) by (apply Z.div_pos; lia).
  assert (0 <= r2 / 365) by (apply Z.div_pos; lia).
  exists (n0 / 146097), (r / 36524), (r1 / 1461), (r2 / 365), r3.
  repeat split; try reflexivity; lia.
Qed.

Lemma ord2ymd_spec n :
  let '(y, m, d) := ord2ymd n in
  ymd2ord y m d = n
  /\ 1 <= m <= 12
  /\ 1 <= d <= days_in_month y m
  /\ (1 <= n <= MAXORDINAL -> MINYEAR <= y <= MAXYEAR).
Proof.
  rewrite ord2ymd_unfold. cbv zeta.
  destruct (ordinal_blocks n)
    as (q & n100 & n4 & n1 & r3 & En & <- & <- & <- & <- & <-
        & B100 & B4 & B1 & B3 & P100 & P4 & P1).
  assert (Hq : 1 <= n <= MAXORDINAL -> 0 <= q <= 24
               /\ (q = 24 -> 36524 * n100 + 1461 * n4 + 365 * n1 + r3 <= 145730)).
  { unfold MAXORDINAL. lia. }
  unfold MINYEAR, MAXYEAR.
  destruct (Z.eqb_spec n1 4) as [-> | Hn1]; cbn [orb].
  { (* the last day of a leap year that ends a block of four *)
    assert (Hn4 : n4 <= 23) by lia.
    assert (Hn100 : n100 <= 3) by lia.
    assert (Hr3 : r3 = 0) by lia.
    unfold ymd2ord, days_before_month, days_in_month.
    replace (q * 400 + 1 + n100 * 100 + n4 * 4 + 4 - 1)
      with (400 * q + 100 * n100 + 4 * n4 + 3 + 1) by lia.
    rewrite days_before_year_blocks, is_leap_blocks by lia.
    destruct (Z.eqb_spec n4 24); [lia |].
    change (index DAYS_BEFORE_MONTH 12) with 334.
    change (index DAYS_IN_MONTH 12) with 31.
    cbn [Z.eqb Z.gtb Z.compare Pos.compare Pos.compare_cont Pos.eqb andb negb orb].
    unfold MAXORDINAL in *. lia. }
  destruct (Z.eqb_spec n100 4) as [-> | Hn100].
  { (* the last day of a block of four hundred years *)
    assert (Hn4 : n4 = 0) by lia.
    assert (Hn1' : n1 = 0) by lia.
    assert (Hr3 : r3 = 0) by lia.
    subst. unfold ymd2ord, days_before_month, days_in_month.
    replace (q * 400 + 1 + 4 * 100 + 0 * 4 + 0 - 1)
      with (400 * q + 100 * 3 + 4 * 24 + 3 + 1) by lia.
    rewrite days_before_year_blocks, is_leap_blocks by lia.
    change (index DAYS_BEFORE_MONTH 12) with 334.
    change (index DAYS_IN_MONTH 12) with 31.
    cbn [Z.eqb Z.gtb Z.compare Pos.compare Pos.compare_cont Pos.eqb andb negb orb].
    unfold MAXORDINAL in *. lia. }
  assert (H100 : n100 <= 3) by lia.
  assert (H4 : n4 <= 24) by lia.
  assert (H1 : n1 <= 3) by lia.
  pose proof (month_day_spec r3 ((n1 =? 3) && (negb (n4 =? 24) || (n100 =? 3))) B3)
    as Hmd.
  unfold month_day_ok in Hmd.
  destruct (month_day r3 _) as [m d].
  unfold ymd2ord, days_before_month, days_in_month.
  replace (q * 400 + 1 + n100 * 100 + n4 * 4 + n1)
    with (400 * q + 100 * n100 + 4 * n4 + n1 + 1) by lia.
  rewrite days_before_year_blocks, is_leap_blocks by lia.
  rewrite !andb_true_iff, !Z.leb_le, Z.eqb_eq in Hmd.
  destruct Hmd as [[[[Hm1 Hm12] Hd1] Hdim] Hday].
  unfold MAXORDINAL in *.
  split; [lia |]. split; [lia |]. split; [lia |].
  intros Hn. destruct (Hq Hn) as [Hq24 Hlast].
  assert (Hy : 100 * n100 + 4 * n4 + n1 <= 399) by lia.
  destruct (Z.eq_dec q 24) as [-> | Hne]; [| lia].
  specialize (Hlast eq_refl).
  assert (Hnotlast : ~ (n100 = 3 /\ n4 = 24 /\ n1 = 3)) by lia.
  lia.
Qed.

End CalendarFacts.

(** ** [isoformat] and back *)

Section IsoformatFacts.
Import Datetime.

Lemma digit_value_digit n : 0 <= n <= 9 -> digit_value (digit n) = Some n.
Proof.
  intros Hn.
  pose proof (checked_below
                (fun k => bool_decide (digit_value (digit k) = Some k)) 10
                eq_refl n ltac:(lia)) as Hcheck.
  by apply bool_decide_eq_true_1 in Hcheck.
Qed.

Lemma read_digits_snoc w : forall acc s v c d s',
  read_digits w acc s = Some (v, String c s') ->
  digit_value c = Some d ->
  read_digits (S w) acc s = Some (10 * v + d, s').
Proof.
  induction w as [| w IH]; intros acc s v c d s' Hread Hc.
  - cbn in Hread. injection Hread as <- ->. cbn. rewrite Hc. reflexivity.
  - cbn [read_digits] in Hread |- *.
    destruct s as [| c0 s0]; [discriminate |].
    destruct (digit_value c0) as [v0 |]; [| discriminate].
    apply (IH _ _ _ _ _ _ Hread Hc).
Qed.

(** Reading [w] digits off the front of a numeral with [w] digits. *)
Lemma read_digits_digits w : forall n acc rest,
  0 <= n < 10 ^ Z.of_nat w ->
  read_digits w acc (digits w n +:+ rest)
  = Some (acc * 10 ^ Z.of_nat w + n, rest).
Proof.
  induction w as [| w IH]; intros n acc rest Hn.
  - cbn in *. f_equal. f_equal. lia.
  - rewrite Nat2Z.inj_succ, Z.pow_succ_r in * by lia.
    cbn [digits]. rewrite append_assoc, append_String.
    change ("" +:+ rest) with rest.
    pose proof (Z.div_mod n 10 ltac:(lia)) as Hdm.
    pose proof (Z.mod_pos_bound n 10 ltac:(lia)) as Hm.
    assert (Hq : 0 <= n / 10 < 10 ^ Z.of_nat w).
    { split; [apply Z.div_pos; lia | apply Z.div_lt_upper_bound; lia]. }
    rewrite (read_digits_snoc w acc _ _ _ (n mod 10) rest
               (IH (n / 10) acc _ Hq) (digit_value_digit (n mod 10) ltac:(lia))).
    f_equal. f_equal. lia.
Qed.

Lemma read_number_digits w n rest :
  0 <= n < 10 ^ Z.of_nat w ->
  read_number w (digits w n +:+ rest) = Some (n, rest).
Proof.
  intros Hn. unfold read_number. rewrite read_digits_digits by exact Hn.
  reflexivity.
Qed.

Lemma valid_fields_ranges d :
  valid_fields d = true ->
  (MINYEAR <= year d <= MAXYEAR)
  /\ (1 <= month d <= 12)
  /\ (1 <= day d <= days_in_month (year d) (month d))
  /\ (0 <= hour d < 24) /\ (0 <= minute d < 60) /\ (0 <= second d < 60)
  /\ (0 <= microsecond d < 1000000)
  /\ (-86400 < offset d < 86400).
Proof.
  unfold valid_fields. rewrite !andb_true_iff.
  rewrite !Z.leb_le, !Z.ltb_lt. tauto.
Qed.

Lemma days_in_month_le_31 y m : 1 <= m <= 12 -> days_in_month y m <= 31.
Proof.
  intros Hm. unfold days_in_month.
  destruct (_ && _); [lia |].
  apply Z.leb_le.
  apply (checked_below (fun k => index DAYS_IN_MONTH k <=? 31) 13 eq_refl).
  lia.
Qed.

Lemma read_fraction_none c s :
  c <> "."%char -> read_fraction (String c s) = Some (0, String c s).
Proof.
  intros Hc. unfold read_fraction, expect.
  destruct (Ascii.eqb_spec "." c) as [<- | _]; [contradiction | reflexivity].
Qed.

Lemma read_time_fraction us c s :
  0 <= us < 1000000 ->
  c <> "."%char ->
  read_fraction ((if us =? 0 then "" else "." +:+ digits 6 us) +:+ String c s)
  = Some (us, String c s).
Proof.
  intros Hus Hc.
  destruct (Z.eqb_spec us 0) as [-> | Hnz].
  - by apply read_fraction_none.
  - rewrite append_assoc.
    change ("." +:+ digits 6 us +:+ String c s)
      with (String "." (digits 6 us +:+ String c s)).
    unfold read_fraction. cbn [expect].
    change (Ascii.eqb "." ".") with true. cbv iota.
    apply read_number_digits. lia.
Qed.

Lemma read_offset_seconds_end ss :
  0 <= ss < 60 ->
  read_offset_seconds (if ss =? 0 then "" else ":" +:+ digits 2 ss)
  = Some (ss, "").
Proof.
  intros Hss. destruct (Z.eqb_spec ss 0) as [-> | Hnz]; [reflexivity |].
  change (":" +:+ digits 2 ss) with (String ":" (digits 2 ss)).
  unfold read_offset_seconds. cbn [expect].
  change (Ascii.eqb ":" ":") with true. cbv iota.
  rewrite <- (append_nil_r (digits 2 ss)).
  apply read_number_digits. lia.
Qed.

Lemma expect_here c s : expect c (String c "" +:+ s) = Some s.
Proof.
  change (String c "" +:+ s) with (String c s).
  unfold expect. by rewrite Ascii.eqb_refl.
Qed.

(** The offset split into hours, minutes and seconds adds up again. *)
Lemma offset_parts a :
  0 <= a < 86400 ->
  0 <= a / 3600 < 100
  /\ 0 <= a mod 3600 / 60 < 60
  /\ 0 <= a mod 60 < 60
  /\ a / 3600 * 3600 + a mod 3600 / 60 * 60 + a mod 60 = a.
Proof.
  intros Ha. Z.div_mod_to_equations. lia.
Qed.

Lemma format_offset_parts off :
  -86400 < off < 86400 ->
  exists oh om os,
    0 <= oh < 100 /\ 0 <= om < 60 /\ 0 <= os < 60
    /\ (if off <? 0 then -1 else 1) * (oh * 3600 + om * 60 + os) = off
    /\ format_offset off
       = String (if off <? 0 then "-"%char else "+"%char)
           (digits 2 oh +:+ ":" +:+ digits 2 om
              +:+ (if os =? 0 then "" else ":" +:+ digits 2 os)).
Proof.
  intros Hoff.
  destruct (offset_parts (Z.abs off) ltac:(lia)) as (Hh & Hm & Hs & Hsum).
  exists (Z.abs off / 3600), (Z.abs off mod 3600 / 60), (Z.abs off mod 60).
  split; [exact Hh |]. split; [exact Hm |]. split; [exact Hs |].
  split.
  - destruct (Z.ltb_spec off 0); lia.
  - unfold format_offset. cbv zeta. destruct (off <? 0); reflexivity.
Qed.

Lemma Return_inj {A} (a b : A) : Return a = Return b -> a = b.
Proof. congruence. Qed.

Lemma parse_isoformat_isoformat d s :
  valid_fields d = true ->
  isoformat d = Return s ->
  parse_isoformat s = Some d.
Proof.
  intros Hvalid Hs.
  destruct (valid_fields_ranges d Hvalid)
    as (Hy & Hm & Hd & Hhh & Hmm & Hss & Hus & Hoff).
  pose proof (days_in_month_le_31 (year d) (month d) Hm) as Hd31.
  unfold MINYEAR, MAXYEAR in Hy.
  unfold isoformat in Hs.
  destruct (_ && _) in Hs; [| discriminate]. apply Return_inj in Hs. subst s.
  destruct (format_offset_parts (offset d) Hoff)
    as (oh & om & os & Hoh & Hom & Hos & Hsum & ->).
  unfold format_time. rewrite !append_assoc.
  unfold parse_isoformat.
  rewrite read_number_digits by lia. cbn [mbind option_bind].
  rewrite expect_here. cbn [mbind option_bind].
  rewrite read_number_digits by lia. cbn [mbind option_bind].
  rewrite expect_here. cbn [mbind option_bind].
  rewrite read_number_digits by lia. cbn [mbind option_bind].
  rewrite expect_here. cbn [mbind option_bind].
  rewrite read_number_digits by lia. cbn [mbind option_bind].
  rewrite expect_here. cbn [mbind option_bind].
  rewrite read_number_digits by lia. cbn [mbind option_bind].
  rewrite expect_here. cbn [mbind option_bind].
  rewrite read_number_digits by lia. cbn [mbind option_bind].
  rewrite read_time_fraction by (try lia; destruct (offset d <? 0); discriminate).
  cbn [mbind option_bind].
  assert (Hsign : read_sign
                    (String (if offset d <? 0 then "-"%char else "+"%char)
                       (digits 2 oh +:+ ":" +:+ digits 2 om
                          +:+ (if os =? 0 then "" else ":" +:+ digits 2 os)))
                  = Some (if offset d <? 0 then -1 else 1,
                          digits 2 oh +:+ ":" +:+ digits 2 om
                            +:+ (if os =? 0 then "" else ":" +:+ digits 2 os)))
    by (destruct (offset d <? 0); reflexivity).
  rewrite Hsign. cbn [mbind option_bind].
  rewrite read_number_digits by lia. cbn [mbind option_bind].
  rewrite expect_here. cbn [mbind option_bind].
  rewrite read_number_digits by lia. cbn [mbind option_bind].
  rewrite read_offset_seconds_end by lia. cbn [mbind option_bind].
  rewrite Hsum.
  replace {| year := year d; month := month d; day := day d; hour := hour d;
             minute := minute d; second := second d;
             microsecond := microsecond d; offset := offset d |}
    with d by (by destruct d).
  rewrite Hvalid.
  destruct (Z.ltb_spec om 60); [| lia]. destruct (Z.ltb_spec os 60); [| lia].
  reflexivity.
Qed.

End IsoformatFacts.

(** ** [datetime.now] *)

Section NowFacts.
Import Datetime.

Lemma civil_valid t us off :
  ordinal_in_range (t + off) = true ->
  0 <= us < 1000000 ->
  -86400 < off < 86400 ->
  valid_fields (civil t us off) = true.
Proof.
  intros Hrange Hus Hoff. unfold ordinal_in_range in Hrange.
  apply andb_prop in Hrange. destruct Hrange as [Hlo Hhi].
  apply Z.leb_le in Hlo, Hhi.
  unfold civil. cbv zeta.
  pose proof (ord2ymd_spec ((t + off) / 86400 + EPOCH_ORDINAL)) as Hspec.
  destruct (ord2ymd _) as [[y m] d].
  destruct Hspec as (_ & Hm & Hd & Hy). specialize (Hy (conj Hlo Hhi)).
  pose proof (Z.mod_pos_bound (t + off) 86400 ltac:(lia)) as Hrem.
  set (rem := (t + off) mod 86400) in *.
  unfold valid_fields. cbn [year month day hour minute second microsecond offset].
  rewrite !andb_true_iff, !Z.leb_le, !Z.ltb_lt.
  assert (0 <= rem / 3600 < 24) by (Z.div_mod_to_equations; lia).
  assert (0 <= rem mod 3600 / 60 < 60) by (Z.div_mod_to_equations; lia).
  assert (0 <= rem mod 60 < 60) by (Z.div_mod_to_equations; lia).
  lia.
Qed.

(** The civil reading denotes the instant it was taken at. *)
Lemma timestamp_civil t us off : timestamp (civil t us off) = t.
Proof.
  unfold civil, timestamp. cbv zeta.
  pose proof (ord2ymd_spec ((t + off) / 86400 + EPOCH_ORDINAL)) as Hspec.
  destruct (ord2ymd _) as [[y m] d].
  destruct Hspec as (Hord & _).
  cbn [year month day hour minute second microsecond offset].
  rewrite Hord. Z.div_mod_to_equations. lia.
Qed.

Lemma now_in_range tz clock :
  clock_in_range clock ->
  valid_zone tz ->
  now tz clock
  = Return (civil (clock / 1000000) (clock mod 1000000)
                  (utcoffset tz (clock / 1000000)))
  /\ valid_fields (civil (clock / 1000000) (clock mod 1000000)
                         (utcoffset tz (clock / 1000000))) = true.
Proof.
  intros Hclock Hzone. unfold clock_in_range in Hclock.
  specialize (Hzone (clock / 1000000)).
  set (t := clock / 1000000) in *. set (off := utcoffset tz t) in *.
  assert (Hutc : ordinal_in_range t = true).
  { unfold ordinal_in_range. rewrite andb_true_iff, !Z.leb_le. lia. }
  assert (Hlocal : ordinal_in_range (t + off) = true).
  { unfold ordinal_in_range. rewrite andb_true_iff, !Z.leb_le.
    unfold MAXORDINAL, EPOCH_ORDINAL in *. Z.div_mod_to_equations. lia. }
  split.
  - unfold now. cbv zeta. fold t. fold off. rewrite Hutc, Hlocal. reflexivity.
  - apply civil_valid; [exact Hlocal | | exact Hzone].
    apply Z.mod_pos_bound. lia.
Qed.

(** In range, the text [current_time] produces reads back as the civil
    time of the clock's instant in the zone. *)
Lemma timestamp_in_parses tz clock :
  clock_in_range clock ->
  valid_zone tz ->
  exists s,
    TimeWeather.timestamp_in tz clock = Return s
    /\ parse_isoformat s
       = Some (civil (clock / 1000000) (clock mod 1000000)
                     (utcoffset tz (clock / 1000000))).
Proof.
  intros Hclock Hzone.
  destruct (now_in_range tz clock Hclock Hzone) as [Hnow Hvalid].
  unfold TimeWeather.timestamp_in. rewrite Hnow.
  destruct (isoformat _) as [s | e] eqn:Hs.
  - exists s. split; [reflexivity |]. by apply parse_isoformat_isoformat.
  - exfalso. unfold isoformat in Hs. cbn [offset civil] in Hs.
    specialize (Hzone (clock / 1000000)).
    revert Hs. unfold civil. cbv zeta. destruct (ord2ymd _) as [[y m] d].
    cbn [offset].
    destruct (Z.ltb_spec (-86400) (utcoffset tz (clock / 1000000))); [| lia].
    destruct (Z.ltb_spec (utcoffset tz (clock / 1000000)) 86400); [| lia].
    discriminate.
Qed.

Lemma utc_valid_zone : valid_zone utc.
Proof. intros t. cbn. lia. Qed.

End NowFacts.

(** ** The timestamp [current_time] returns *)

Section CurrentTimeClaims.
Import Datetime TimeWeather.
Context (tzdata : string -> outcome tzinfo).

(** C4: with the clock in range, for a time zone name [ZoneInfo] accepts
    [current_time] returns a string that parses as an ISO timestamp whose
    offset is the zone's at that instant and which denotes the instant
    of the clock; for "UTC" the string parses, has offset zero and
    denotes the instant of the clock. *)
Theorem current_time_is_iso_timestamp w :
  clock_in_range (clock w) ->
  (forall timezone z,
      upper timezone <> "UTC" ->
      tzdata timezone = Return z ->
      valid_zone z ->
      exists s d,
        fst (current_time tzdata timezone w) = Return s
        /\ parse_isoformat s = Some d
        /\ offset d = utcoffset z (clock w / 1000000)
        /\ timestamp d = clock w / 1000000
        /\ microsecond d = clock w mod 1000000)
  /\ (exists s d,
         fst (current_time tzdata "UTC" w) = Return s
         /\ parse_isoformat s = Some d
         /\ offset d = 0
         /\ timestamp d = clock w / 1000000
         /\ microsecond d = clock w mod 1000000).
Proof.
  intros Hclock. split.
  - intros timezone z Hup Hz Hzone.
    destruct (timestamp_in_parses z (clock w) Hclock Hzone) as (s & Hs & Hparse).
    exists s, (civil (clock w / 1000000) (clock w mod 1000000)
                    (utcoffset z (clock w / 1000000))).
    rewrite (current_time_zone_found tzdata timezone z w Hup Hz).
    split; [exact Hs |]. split; [exact Hparse |].
    split; [| split; [apply timestamp_civil |]];
      unfold civil; cbv zeta; destruct (ord2ymd _) as [[y m] d]; reflexivity.
  - destruct (timestamp_in_parses utc (clock w) Hclock utc_valid_zone)
      as (s & Hs & Hparse).
    exists s, (civil (clock w / 1000000) (clock w mod 1000000) 0).
    rewrite (current_time_utc_branch tzdata "UTC" w eq_refl).
    split; [exact Hs |]. split; [exact Hparse |].
    split; [| split; [apply timestamp_civil |]];
      unfold civil; cbv zeta; destruct (ord2ymd _) as [[y m] d]; reflexivity.
Qed.

End CurrentTimeClaims.

(** ** Which tools always return *)

Section TotalityClaims.
Import Datetime TimeWeather MemoryAgent.
Context (tzdata : string -> outcome tzinfo) (P : Provider).

Lemma websearch_returns keywords region max_results log :
  raises_Exceptions_only P ->
  exists v log',
    websearch P keywords region max_results log = (Return v, log').
Proof.
  intros [Hinit Htext].
  destruct (DDGS_init P log) as [[] | e] eqn:Hi.
  - destruct (DDGS_text P (log ++ [CallDDGS]) keywords region max_results)
      as [rs | e] eqn:Ht.
    + eexists _, _. by apply websearch_text_returns.
    + eexists _, _. apply websearch_text_raises; [exact Hi | exact Ht |].
      by apply (Htext _ _ _ _ _ Ht).
  - eexists _, _. apply websearch_init_raises; [exact Hi |].
    by apply (Hinit _ _ Hi).
Qed.

(** C1, as the code has it: [current_weather] always returns; [websearch]
    returns whenever the provider answers or fails with an [Exception];
    [current_time] returns a string when the name is "UTC" in any case or
    one [ZoneInfo] accepts (the clock being in range), and for every
    other name the exception [ZoneInfo] raises reaches the caller. *)
Theorem tools_return_unless_zone_unknown :
  (forall city w, exists s, current_weather city w = (Return s, w))
  /\ (forall keywords region max_results log,
         raises_Exceptions_only P ->
         exists v log',
           websearch P keywords region max_results log = (Return v, log'))
  /\ (forall timezone w,
         clock_in_range (clock w) ->
         (upper timezone = "UTC"
          \/ exists z, tzdata timezone = Return z /\ valid_zone z) ->
         exists s, fst (current_time tzdata timezone w) = Return s)
  /\ (forall timezone w e,
         upper timezone <> "UTC" ->
         tzdata timezone = Raise e ->
         fst (current_time tzdata timezone w) = Raise e).
Proof.
  split; [intros city w; by exists "sunny" |].
  split; [intros; by apply websearch_returns |].
  split.
  - intros timezone w Hclock Hname.
    destruct (decide (upper timezone = "UTC")) as [Hup | Hup].
    + rewrite (current_time_utc_branch tzdata timezone w Hup).
      destruct (timestamp_in_parses utc (clock w) Hclock utc_valid_zone)
        as (s & Hs & _).
      by exists s.
    + destruct Hname as [Hutc | (z & Hz & Hzone)]; [contradiction |].
      rewrite (current_time_zone_found tzdata timezone z w Hup Hz).
      destruct (timestamp_in_parses z (clock w) Hclock Hzone) as (s & Hs & _).
      by exists s.
  - intros timezone w e Hup Hz.
    by rewrite (current_time_zone_missing tzdata timezone e w Hup Hz).
Qed.

End TotalityClaims.

Section CurrentTimeWitnesses.
Import Datetime TimeWeather MemoryAgent SampleZones SampleSearches.

Lemma noon_in_range : clock_in_range (clock noon).
Proof. vm_compute. split; reflexivity. Qed.

Lemma los_angeles_valid : valid_zone los_angeles.
Proof. intros t. cbn. destruct (_ && _); lia. Qed.

Lemma cat_provider_raises_nothing : raises_Exceptions_only cat_provider.
Proof.
  split.
  - intros log e. discriminate.
  - intros log keywords region max_results e. cbn.
    destruct (String.eqb keywords "cats"); discriminate.
Qed.

(** C1 as stated fails: a name the time zone database does not know
    makes [current_time] raise [ZoneInfoNotFoundError]. *)
Lemma current_time_unknown_zone_raises :
  fst (current_time sample_tzdata "Mars/Olympus_Mons" noon)
  = Raise (PyExc ZoneInfoNotFoundError
                 "'No time zone found with key Mars/Olympus_Mons'")
  /\ ~ returns (fst (current_time sample_tzdata "Mars/Olympus_Mons" noon)).
Proof.
  assert (Hrun : fst (current_time sample_tzdata "Mars/Olympus_Mons" noon)
                 = Raise (PyExc ZoneInfoNotFoundError
                            "'No time zone found with key Mars/Olympus_Mons'"))
    by (vm_compute; reflexivity).
  split; [exact Hrun |].
  rewrite Hrun. intros [s Hs]. discriminate.
Qed.

Lemma current_time_is_iso_timestamp_witness :
  exists d,
    fst (current_time sample_tzdata "America/Los_Angeles" noon)
    = Return "2024-06-01T05:00:00.123456-07:00"
    /\ parse_isoformat "2024-06-01T05:00:00.123456-07:00" = Some d
    /\ offset d = -25200
    /\ timestamp d = 1717243200
    /\ microsecond d = 123456.
Proof.
  destruct (current_time_is_iso_timestamp sample_tzdata noon noon_in_range)
    as [Hzone _].
  destruct (Hzone "America/Los_Angeles" los_angeles)
    as (s & d & Hrun & Hparse & Hoffset & Hinstant & Hmicro).
  - vm_compute. discriminate.
  - reflexivity.
  - exact los_angeles_valid.
  - assert (Hs : s = "2024-06-01T05:00:00.123456-07:00").
    { vm_compute in Hrun. by injection Hrun. }
    subst s. exists d.
    split; [vm_compute; reflexivity |].
    split; [exact Hparse |].
    split; [exact Hoffset |].
    split; [exact Hinstant | exact Hmicro].
Defined.

Lemma tools_return_unless_zone_unknown_witness :
  (exists v log', websearch cat_provider "dogs" "us-en" None [] = (Return v, log'))
  /\ (exists s, fst (current_time sample_tzdata "Asia/Kolkata" noon) = Return s)
  /\ fst (current_time sample_tzdata "Mars/Olympus_Mons" noon)
     = Raise (PyExc ZoneInfoNotFoundError
                    "'No time zone found with key Mars/Olympus_Mons'").
Proof.
  destruct (tools_return_unless_zone_unknown sample_tzdata cat_provider)
    as (_ & Hsearch & Htime & Hraise).
  split; [apply Hsearch, cat_provider_raises_nothing |].
  split.
  - apply Htime; [exact noon_in_range |].
    right. exists kolkata. split; [reflexivity |].
    intros t. cbn. lia.
  - apply Hraise; [vm_compute; discriminate | vm_compute; reflexivity].
Defined.

End CurrentTimeWitnesses.

(** * Further properties *)

(** ** [websearch] on every path *)

Section WebsearchPaths.
Import MemoryAgent MemoryAgentSpec.
Context (P : Provider).

Lemma not_Exception_not_provider_error e :
  isinstance e Exception = false ->
  isinstance e DuckDuckGoSearchException = false
  /\ isinstance e RatelimitException = false.
Proof.
  intros Hexc.
  destruct (isinstance e DuckDuckGoSearchException) eqn:Hd.
  { apply provider_error_is_Exception in Hd. congruence. }
  destruct (isinstance e RatelimitException) eqn:Hr; [| done].
  apply ratelimit_is_provider_error in Hr. congruence.
Qed.

(** The three clauses of the [try] statement, applied to [e]. *)
Lemma websearch_clauses e (log : World) :
  dispatch
    [ (RatelimitException, fun _ =>
         mret (Text "RatelimitException: Please try again after a short delay."));
      (DuckDuckGoSearchException, fun d =>
         mret (Text ("DuckDuckGoSearchException: " +:+ exn_str d)));
      (Exception, fun e =>
         mret (Text ("Exception: " +:+ exn_str e))) ] e log
  = (handled e, log).
Proof.
  unfold handled, error_text. cbn [dispatch].
  destruct (isinstance e Exception) eqn:Hexc.
  - destruct (isinstance e RatelimitException); [reflexivity |].
    destruct (isinstance e DuckDuckGoSearchException); reflexivity.
  - destruct (not_Exception_not_provider_error e Hexc) as [-> ->].
    reflexivity.
Qed.

(** [websearch] in full: what it returns and what it has called. *)
Lemma websearch_run keywords region max_results log :
  websearch P keywords region max_results log
  = match DDGS_init P log with
    | Raise e => (handled e, log ++ [CallDDGS])
    | Return _ =>
        match DDGS_text P (log ++ [CallDDGS]) keywords region max_results with
        | Return rs =>
            (Return (if truthy rs then Records rs else Text "No results found."),
             log ++ [CallDDGS; CallText keywords region max_results])
        | Raise e =>
            (handled e, log ++ [CallDDGS; CallText keywords region max_results])
        end
    end.
Proof.
  unfold websearch, try_except.
  unfold mbind at 1, M_bind at 1, Py.bind at 1, DDGS.
  destruct (DDGS_init P log) as [[] | e]; [| apply websearch_clauses].
  unfold mbind, M_bind, Py.bind, text.
  destruct (DDGS_text P (log ++ [CallDDGS]) keywords region max_results)
    as [rs | e].
  - rewrite <- app_assoc. reflexivity.
  - rewrite <- app_assoc. apply websearch_clauses.
Qed.

Lemma handled_is_Text e : forall rs, handled e <> Return (Records rs).
Proof. intros rs. unfold handled. destruct (isinstance e Exception); discriminate. Qed.

(** X1: a list [websearch] returns is never empty, and is the list the
    search returned for the caller's own arguments. *)
Theorem websearch_list_is_nonempty keywords region max_results log rs log' :
  websearch P keywords region max_results log = (Return (Records rs), log') ->
  rs <> []
  /\ DDGS_text P (log ++ [CallDDGS]) keywords region max_results = Return rs.
Proof.
  rewrite websearch_run.
  destruct (DDGS_init P log) as [[] | e].
  - destruct (DDGS_text P (log ++ [CallDDGS]) keywords region max_results)
      as [found | e].
    + destruct found as [| r found]; [discriminate |].
      intros [= <- _]. split; [discriminate | reflexivity].
    + intros [= Hres _]. by apply handled_is_Text in Hres.
  - intros [= Hres _]. by apply handled_is_Text in Hres.
Qed.

(** X2: on every path [websearch] builds one client and issues at most
    one search, with the arguments it was given; when the client is
    built, exactly one.  Nothing is tried twice. *)
Theorem websearch_calls_at_most_once keywords region max_results log :
  let log' := snd (websearch P keywords region max_results log) in
  (log' = log ++ [CallDDGS]
   \/ log' = log ++ [CallDDGS; CallText keywords region max_results])
  /\ (searches log' <= S (searches log))%nat
  /\ (returns (DDGS_init P log) ->
      log' = log ++ [CallDDGS; CallText keywords region max_results]).
Proof.
  cbv zeta. rewrite websearch_run.
  destruct (DDGS_init P log) as [[] | e]; cbn [snd].
  - destruct (DDGS_text P (log ++ [CallDDGS]) keywords region max_results);
      cbn [snd]; (split; [by right |]);
      (split; [rewrite searches_app; cbn; lia | done]).
  - split; [by left |].
    split; [rewrite searches_app; cbn; lia |].
    intros [a Ha]. discriminate.
Qed.

(** X3: when the client cannot be built, the failure is reported like a
    failed search, as a labelled string, and no search is attempted. *)
Theorem websearch_client_failure_is_labelled
  keywords region max_results log e :
  DDGS_init P log = Raise e ->
  isinstance e Exception = true ->
  websearch P keywords region max_results log
  = (Return (Text (error_text e)), log ++ [CallDDGS])
  /\ searches (snd (websearch P keywords region max_results log))
     = searches log.
Proof.
  intros Hinit Hexc. rewrite websearch_run, Hinit.
  unfold handled. rewrite Hexc. cbn [snd].
  split; [reflexivity |]. rewrite searches_app. cbn. lia.
Qed.

(** X4: an exception that is no [Exception] (an interrupt, say) is not
    turned into a string: it leaves [websearch] unchanged, from the
    constructor and from the search alike. *)
Theorem websearch_passes_on_non_Exceptions
  keywords region max_results log e :
  isinstance e Exception = false ->
  (DDGS_init P log = Raise e ->
   websearch P keywords region max_results log = (Raise e, log ++ [CallDDGS]))
  /\ (DDGS_init P log = Return tt ->
      DDGS_text P (log ++ [CallDDGS]) keywords region max_results = Raise e ->
      websearch P keywords region max_results log
      = (Raise e, log ++ [CallDDGS; CallText keywords region max_results])).
Proof.
  intros Hexc. split.
  - intros Hinit. rewrite websearch_run, Hinit. unfold handled. by rewrite Hexc.
  - intros Hinit Htext. rewrite websearch_run, Hinit, Htext.
    unfold handled. by rewrite Hexc.
Qed.

(** X5: the provider's message survives in the returned string, right
    after the label, for every failure except a rate limit, whose
    message is replaced by a fixed advice. *)
Theorem websearch_keeps_message_except_ratelimit
  keywords region max_results log e :
  DDGS_init P log = Return tt ->
  DDGS_text P (log ++ [CallDDGS]) keywords region max_results = Raise e ->
  isinstance e Exception = true ->
  fst (websearch P keywords region max_results log)
  = Return (Text (if isinstance e RatelimitException
                  then "RatelimitException: Please try again after a short delay."
                  else label e +:+ exn_str e)).
Proof.
  intros Hinit Htext Hexc. rewrite websearch_run, Hinit, Htext.
  unfold handled, error_text, label. rewrite Hexc. cbn [fst].
  destruct (isinstance e RatelimitException); [reflexivity |].
  destruct (isinstance e DuckDuckGoSearchException); reflexivity.
Qed.

End WebsearchPaths.

Section WebsearchPathsWitnesses.
Import MemoryAgent MemoryAgentSpec SampleSearches MoreSamples.

Lemma websearch_list_is_nonempty_witness :
  take 3 cat_results <> []
  /\ DDGS_text cat_provider [CallDDGS] "cats" "us-en" (Some 3)
     = Return (take 3 cat_results).
Proof.
  apply (websearch_list_is_nonempty cat_provider "cats" "us-en" (Some 3) []
           (take 3 cat_results) [CallDDGS; CallText "cats" "us-en" (Some 3)]).
  reflexivity.
Defined.

Lemma websearch_calls_at_most_once_witness :
  snd (websearch cat_provider "dogs" "us-en" None [])
  = [CallDDGS; CallText "dogs" "us-en" None].
Proof.
  destruct (websearch_calls_at_most_once cat_provider "dogs" "us-en" None [])
    as (_ & _ & Hbuilt).
  apply Hbuilt. by exists tt.
Defined.

Lemma websearch_client_failure_is_labelled_witness :
  websearch (unbuildable_provider bad_proxy) "cats" "us-en" None []
  = (Return (Text "Exception: Unknown scheme for proxy URL"), [CallDDGS])
  /\ searches (snd (websearch (unbuildable_provider bad_proxy) "cats" "us-en" None []))
     = 0%nat.
Proof.
  apply (websearch_client_failure_is_labelled (unbuildable_provider bad_proxy)
           "cats" "us-en" None [] bad_proxy); reflexivity.
Defined.

Lemma websearch_passes_on_non_Exceptions_witness :
  websearch (failing_provider interrupted) "cats" "us-en" None []
  = (Raise interrupted, [CallDDGS; CallText "cats" "us-en" None]).
Proof.
  destruct (websearch_passes_on_non_Exceptions (failing_provider interrupted)
              "cats" "us-en" None [] interrupted eq_refl)
    as [_ Htext].
  apply Htext; reflexivity.
Defined.

Lemma websearch_keeps_message_except_ratelimit_witness :
  fst (websearch (failing_provider timed_out) "cats" "us-en" None [])
  = Return (Text "DuckDuckGoSearchException: https://html.duckduckgo.com/html timed out").
Proof.
  apply (websearch_keeps_message_except_ratelimit (failing_provider timed_out)
           "cats" "us-en" None [] timed_out); reflexivity.
Defined.

End WebsearchPathsWitnesses.

(** ** [current_time]: which names reach [ZoneInfo], and what the text
    tells *)

Section CurrentTimePaths.
Import Datetime TimeWeather TimeWeatherSpec.
Context (tzdata : string -> outcome tzinfo).

Lemma upper_char_U a : upper_char a = "U"%char -> a = "U"%char \/ a = "u"%char.
Proof.
  destruct a as [[] [] [] [] [] [] [] []]; vm_compute; intros H;
    try discriminate H; auto.
Qed.

Lemma upper_char_T a : upper_char a = "T"%char -> a = "T"%char \/ a = "t"%char.
Proof.
  destruct a as [[] [] [] [] [] [] [] []]; vm_compute; intros H;
    try discriminate H; auto.
Qed.

Lemma upper_char_C a : upper_char a = "C"%char -> a = "C"%char \/ a = "c"%char.
Proof.
  destruct a as [[] [] [] [] [] [] [] []]; vm_compute; intros H;
    try discriminate H; auto.
Qed.

(** The test [timezone.upper() == "UTC"] holds for eight strings. *)
Lemma upper_is_UTC timezone :
  upper timezone = "UTC" <-> timezone ∈ utc_spellings.
Proof.
  split.
  - destruct timezone as [| a [| b [| c [| d rest]]]]; try discriminate.
    cbn [upper]. intros [= Ha Hb Hc].
    apply upper_char_U in Ha. apply upper_char_T in Hb. apply upper_char_C in Hc.
    unfold utc_spellings.
    destruct Ha as [-> | ->], Hb as [-> | ->], Hc as [-> | ->];
      repeat (first [apply list_elem_of_here | apply list_elem_of_further]).
  - unfold utc_spellings. rewrite !elem_of_cons, elem_of_nil.
    intros H. repeat (destruct H as [-> | H]; [reflexivity |]). destruct H.
Qed.

(** X6: [current_time] skips [ZoneInfo] for the eight spellings of "UTC"
    in upper and lower case and for nothing else; every other name is
    looked up exactly once, as it was given, whether or not the lookup
    succeeds.  The clock is left alone. *)
Theorem current_time_looks_up_all_but_utc timezone w :
  (timezone ∈ utc_spellings ->
   zone_lookups (snd (current_time tzdata timezone w)) = zone_lookups w)
  /\ (timezone ∉ utc_spellings ->
      zone_lookups (snd (current_time tzdata timezone w))
      = zone_lookups w ++ [timezone])
  /\ clock (snd (current_time tzdata timezone w)) = clock w.
Proof.
  destruct (decide (upper timezone = "UTC")) as [Hup | Hup].
  - rewrite (current_time_utc_branch tzdata timezone w Hup). cbn [snd].
    split; [done |]. split; [| done].
    intros Hout. by apply upper_is_UTC in Hup.
  - assert (Hrun : snd (current_time tzdata timezone w)
                   = {| clock := clock w;
                        zone_lookups := zone_lookups w ++ [timezone] |}).
    { destruct (tzdata timezone) as [z | e] eqn:Hz.
      - by rewrite (current_time_zone_found tzdata timezone z w Hup Hz).
      - by rewrite (current_time_zone_missing tzdata timezone e w Hup Hz). }
    rewrite Hrun. cbn [zone_lookups clock].
    split; [| done].
    intros Hin. by apply upper_is_UTC in Hin.
Qed.

Lemma microsecond_civil t us off : microsecond (civil t us off) = us.
Proof. unfold civil. cbv zeta. by destruct (ord2ymd _) as [[y m] d]. Qed.

Lemma offset_civil t us off : offset (civil t us off) = off.
Proof. unfold civil. cbv zeta. by destruct (ord2ymd _) as [[y m] d]. Qed.

(** Whatever text comes back reads back as the civil time it was made
    from; no assumption on clock or zone is needed, since [now] and
    [isoformat] refuse what is out of range. *)
Lemma timestamp_in_reads_back tz clock s :
  timestamp_in tz clock = Return s ->
  parse_isoformat s
  = Some (civil (clock / 1000000) (clock mod 1000000)
                (utcoffset tz (clock / 1000000))).
Proof.
  unfold timestamp_in, now. cbv zeta.
  destruct (ordinal_in_range (clock / 1000000)); [| discriminate]. cbn [negb].
  destruct (ordinal_in_range (clock / 1000000 + utcoffset tz (clock / 1000000)))
    eqn:Hlocal; [| discriminate]. cbn [negb].
  intros Hs. apply parse_isoformat_isoformat; [| exact Hs].
  apply civil_valid; [exact Hlocal | apply Z.mod_pos_bound; lia |].
  unfold isoformat in Hs. rewrite offset_civil in Hs.
  destruct (Z.ltb_spec (-86400) (utcoffset tz (clock / 1000000)));
    [| discriminate].
  destruct (Z.ltb_spec (utcoffset tz (clock / 1000000)) 86400);
    [lia | discriminate].
Qed.

(** X7: the string [current_time] returns determines the clock reading to
    the microsecond: two calls with the same argument that return the
    same string were made at the same reading. *)
Theorem current_time_text_determines_instant timezone w1 w2 s :
  fst (current_time tzdata timezone w1) = Return s ->
  fst (current_time tzdata timezone w2) = Return s ->
  clock w1 = clock w2.
Proof.
  destruct (current_time_by_zone tzdata timezone) as [zone Hzone].
  rewrite !Hzone. destruct zone as [z | e]; [| discriminate].
  intros H1 H2.
  apply timestamp_in_reads_back in H1, H2. rewrite H1 in H2.
  injection H2 as Hcivil.
  pose proof (f_equal timestamp Hcivil) as Hsecs.
  pose proof (f_equal microsecond Hcivil) as Hmicro.
  rewrite !timestamp_civil in Hsecs. rewrite !microsecond_civil in Hmicro.
  rewrite (Z.div_mod (clock w1) 1000000), (Z.div_mod (clock w2) 1000000) by lia.
  by rewrite Hsecs, Hmicro.
Qed.

End CurrentTimePaths.

Section CurrentTimeShape.
Import Datetime TimeWeather.
Context (tzdata : string -> outcome tzinfo).

Lemma length_append s t :
  String.length (s +:+ t) = (String.length s + String.length t)%nat.
Proof.
  induction s as [| c s IH]; [reflexivity |].
  rewrite append_String. cbn [String.length]. by rewrite IH.
Qed.

Lemma length_digits w n : String.length (digits w n) = w.
Proof.
  revert n. induction w as [| w IH]; intros n; [reflexivity |].
  cbn [digits]. rewrite length_append, IH. cbn. lia.
Qed.

(** X8: for "UTC" in any case, the text returned ends with the explicit
    offset "+00:00"; it is 25 characters long when the clock shows whole
    seconds, and 32 characters, with six digits of fraction, otherwise. *)
Theorem current_time_utc_text_shape timezone w s :
  upper timezone = "UTC" ->
  fst (current_time tzdata timezone w) = Return s ->
  (exists body, s = body +:+ "+00:00")
  /\ String.length s
     = if clock w mod 1000000 =? 0 then 25%nat else 32%nat.
Proof.
  intros Hup. rewrite (current_time_utc_branch tzdata timezone w Hup).
  cbn [fst]. unfold timestamp_in, now. cbv zeta.
  destruct (ordinal_in_range (clock w / 1000000)); [| discriminate].
  cbn [negb utc utcoffset].
  destruct (ordinal_in_range (clock w / 1000000 + 0)); [| discriminate].
  cbn [negb]. unfold isoformat.
  rewrite offset_civil, microsecond_civil.
  change ((-86400 <? 0) && (0 <? 86400)) with true. cbv iota.
  change (format_offset 0) with "+00:00".
  intros Hs. apply Return_inj in Hs. subst s.
  split.
  - eexists. rewrite <- !append_assoc. reflexivity.
  - unfold format_time. rewrite !length_append, !length_digits.
    destruct (clock w mod 1000000 =? 0).
    + reflexivity.
    + rewrite length_append, length_digits. reflexivity.
Qed.

End CurrentTimeShape.

Section CurrentTimePathsWitnesses.
Import Datetime TimeWeather TimeWeatherSpec SampleZones.

Lemma current_time_looks_up_all_but_utc_witness :
  zone_lookups (snd (current_time sample_tzdata "uTc" noon)) = []
  /\ zone_lookups (snd (current_time sample_tzdata "Etc/UTC" noon)) = ["Etc/UTC"].
Proof.
  split.
  - apply (current_time_looks_up_all_but_utc sample_tzdata "uTc" noon).
    unfold utc_spellings. rewrite !elem_of_cons. tauto.
  - apply (current_time_looks_up_all_but_utc sample_tzdata "Etc/UTC" noon).
    unfold utc_spellings. rewrite !elem_of_cons, elem_of_nil.
    intros H. repeat (destruct H as [H | H]; [discriminate H |]). exact H.
Defined.

Lemma current_time_text_determines_instant_witness :
  clock noon = clock {| clock := 1717243200123456; zone_lookups := ["Asia/Kolkata"] |}.
Proof.
  apply (current_time_text_determines_instant sample_tzdata "Asia/Kolkata"
           noon {| clock := 1717243200123456; zone_lookups := ["Asia/Kolkata"] |}
           "2024-06-01T17:30:00.123456+05:30");
    vm_compute; reflexivity.
Defined.

Lemma current_time_utc_text_shape_witness :
  (exists body, "2024-12-01T12:00:00+00:00" = body +:+ "+00:00")
  /\ String.length "2024-12-01T12:00:00+00:00" = 25%nat.
Proof.
  apply (current_time_utc_text_shape sample_tzdata "utc" winter_noon
           "2024-12-01T12:00:00+00:00").
  - reflexivity.
  - vm_compute. reflexivity.
Defined.

End CurrentTimePathsWitnesses.

(** ** The names the knowledge-base notebook derives from the clock *)

Section NameFacts.
Import Datetime KnowledgeBaseNames.

Lemma substring_all s : String.substring 0 (String.length s) s = s.
Proof. induction s as [| c s IH]; [reflexivity |]. cbn. by rewrite IH. Qed.

Lemma substring_skip a b n :
  String.substring (String.length a) n (a +:+ b) = String.substring 0 n b.
Proof.
  induction a as [| c a IH]; [reflexivity |].
  rewrite append_String. cbn [String.length String.substring]. exact IH.
Qed.

(** The last characters of a string that ends with [b] are [b]. *)
Lemma last_chars_append a b :
  last_chars (String.length b) (a +:+ b) = b.
Proof.
  unfold last_chars. rewrite length_append.
  replace (String.length a + String.length b - String.length b)%nat
    with (String.length a) by lia.
  rewrite substring_skip. apply substring_all.
Qed.

Lemma all_chars_append p s t :
  all_chars p (s +:+ t) = all_chars p s && all_chars p t.
Proof.
  induction s as [| c s IH]; [reflexivity |].
  rewrite append_String. cbn [all_chars]. rewrite IH. apply andb_assoc.
Qed.

Lemma is_digit_digit n : 0 <= n <= 9 -> is_digit (digit n) = true.
Proof.
  intros Hn.
  apply (checked_below (fun k => is_digit (digit k)) 10 eq_refl). lia.
Qed.

Lemma all_digits w n : all_chars is_digit (digits w n) = true.
Proof.
  revert n. induction w as [| w IH]; intros n; [reflexivity |].
  cbn [digits]. rewrite all_chars_append, IH. cbn [all_chars andb].
  rewrite is_digit_digit; [reflexivity |].
  pose proof (Z.mod_pos_bound n 10 ltac:(lia)). lia.
Qed.

Lemma is_digit_is_name_char s :
  all_chars is_digit s = true -> all_chars is_name_char s = true.
Proof.
  induction s as [| c s IH]; [reflexivity |].
  cbn [all_chars]. intros H. apply andb_prop in H. destruct H as [Hc Hs].
  unfold is_name_char. rewrite Hc, orb_true_r. cbn [orb andb]. by apply IH.
Qed.

(** The seven characters kept of the fourteen [strftime] prints. *)
Lemma timestamp_str_fields tz secs :
  timestamp_str tz secs
  = String (digit (day (localtime tz secs) mod 10))
      (digits 2 (hour (localtime tz secs))
         +:+ digits 2 (minute (localtime tz secs))
         +:+ digits 2 (second (localtime tz secs))).
Proof.
  unfold timestamp_str, strftime_YmdHMS.
  set (t := localtime tz secs).
  set (tail := digits 2 (hour t) +:+ digits 2 (minute t) +:+ digits 2 (second t)).
  assert (Hday : digits 2 (day t)
                 = digits 1 (day t / 10) +:+ String (digit (day t mod 10)) "")
    by reflexivity.
  rewrite Hday.
  replace (digits 4 (year t) +:+ digits 2 (month t)
             +:+ (digits 1 (day t / 10) +:+ String (digit (day t mod 10)) "")
             +:+ tail)
    with ((digits 4 (year t) +:+ digits 2 (month t) +:+ digits 1 (day t / 10))
            +:+ String (digit (day t mod 10)) tail)
    by (by rewrite !append_assoc).
  assert (Hlen : String.length (String (digit (day t mod 10)) tail) = 7%nat).
  { subst tail. cbn [String.length]. by rewrite !length_append, !length_digits. }
  rewrite <- Hlen at 1. apply last_chars_append.
Qed.

(** X9: the suffix is seven digits: the last digit of the day of the
    month, then hour, minute and second of the local time.  Year, month
    and the tens of the day do not enter it. *)
Theorem suffix_is_day_digit_and_time tz current_time :
  suffix tz current_time
  = String (digit (day (localtime tz current_time) mod 10))
      (digits 2 (hour (localtime tz current_time))
         +:+ digits 2 (minute (localtime tz current_time))
         +:+ digits 2 (second (localtime tz current_time)))
  /\ String.length (suffix tz current_time) = 7%nat
  /\ all_chars is_digit (suffix tz current_time) = true.
Proof.
  unfold suffix. rewrite timestamp_str_fields.
  split; [reflexivity |]. split.
  - cbn [String.length]. by rewrite !length_append, !length_digits.
  - cbn [all_chars]. rewrite !all_chars_append, !all_digits.
    rewrite is_digit_digit; [reflexivity |].
    pose proof (Z.mod_pos_bound (day (localtime tz current_time)) 10 ltac:(lia)).
    lia.
Qed.

(** X10: whatever the clock shows, the bucket name and the knowledge base
    name are 31 characters long and made of lower-case letters, digits
    and hyphens only. *)
Theorem names_have_fixed_length_and_alphabet tz current_time :
  String.length (data_bucket_name (suffix tz current_time)) = 31%nat
  /\ all_chars is_name_char (data_bucket_name (suffix tz current_time)) = true
  /\ String.length (knowledge_base_name (suffix tz current_time)) = 31%nat
  /\ all_chars is_name_char (knowledge_base_name (suffix tz current_time)) = true.
Proof.
  unfold suffix. rewrite timestamp_str_fields.
  set (s := String _ _).
  assert (Hlen : String.length s = 7%nat).
  { subst s. cbn [String.length]. by rewrite !length_append, !length_digits. }
  assert (Hdigits : all_chars is_name_char s = true).
  { apply is_digit_is_name_char. subst s. cbn [all_chars].
    rewrite !all_chars_append, !all_digits.
    rewrite is_digit_digit; [reflexivity |].
    pose proof (Z.mod_pos_bound (day (localtime tz current_time)) 10 ltac:(lia)).
    lia. }
  unfold data_bucket_name, knowledge_base_name.
  rewrite !length_append, !all_chars_append, Hlen, Hdigits.
  repeat split.
Qed.

End NameFacts.

Section TenDaysLater.
Import Datetime KnowledgeBaseNames.

(** [ord2ymd] on an ordinal given by its blocks. *)
Lemma ord2ymd_blocks q n100 n4 n1 r3 :
  0 <= n100 <= 3 -> 0 <= n4 <= 24 -> 0 <= n1 <= 3 -> 0 <= r3 < 365 ->
  ord2ymd (146097 * q + 36524 * n100 + 1461 * n4 + 365 * n1 + r3 + 1)
  = let '(m, d) :=
      month_day r3 ((n1 =? 3) && (negb (n4 =? 24) || (n100 =? 3))) in
    (400 * q + 100 * n100 + 4 * n4 + n1 + 1, m, d).
Proof.
  intros H100 H4 H1 H3. rewrite ord2ymd_unfold. cbv zeta.
  replace (146097 * q + 36524 * n100 + 1461 * n4 + 365 * n1 + r3 + 1 - 1)
    with (146097 * q + 36524 * n100 + 1461 * n4 + 365 * n1 + r3) by lia.
  set (n0 := 146097 * q + 36524 * n100 + 1461 * n4 + 365 * n1 + r3).
  assert (Eq : n0 / 146097 = q).
  { symmetry. apply (Z.div_unique _ _ _ (36524 * n100 + 1461 * n4 + 365 * n1 + r3));
      subst n0; lia. }
  assert (Er : n0 mod 146097 = 36524 * n100 + 1461 * n4 + 365 * n1 + r3).
  { symmetry. apply (Z.mod_unique _ _ q); subst n0; lia. }
  rewrite Eq, Er.
  assert (E100 : (36524 * n100 + 1461 * n4 + 365 * n1 + r3) / 36524 = n100).
  { symmetry. apply (Z.div_unique _ _ _ (1461 * n4 + 365 * n1 + r3)); lia. }
  assert (Er1 : (36524 * n100 + 1461 * n4 + 365 * n1 + r3) mod 36524
                = 1461 * n4 + 365 * n1 + r3).
  { symmetry. apply (Z.mod_unique _ _ n100); lia. }
  rewrite E100, Er1.
  assert (E4 : (1461 * n4 + 365 * n1 + r3) / 1461 = n4).
  { symmetry. apply (Z.div_unique _ _ _ (365 * n1 + r3)); lia. }
  assert (Er2 : (1461 * n4 + 365 * n1 + r3) mod 1461 = 365 * n1 + r3).
  { symmetry. apply (Z.mod_unique _ _ n4); lia. }
  rewrite E4, Er2.
  assert (E1 : (365 * n1 + r3) / 365 = n1).
  { symmetry. apply (Z.div_unique _ _ _ r3); lia. }
  assert (Er3 : (365 * n1 + r3) mod 365 = r3).
  { symmetry. apply (Z.mod_unique _ _ n1); lia. }
  rewrite E1, Er3.
  destruct (Z.eqb_spec n1 4); [lia |]. destruct (Z.eqb_spec n100 4); [lia |].
  cbn [orb]. destruct (month_day r3 _) as [m d]. f_equal. f_equal. lia.
Qed.

Lemma month_day_ten_days n leapyear :
  0 <= n < 365 -> ten_days_ok leapyear n = true.
Proof.
  intros Hn.
  destruct leapyear;
    apply (checked_below _ 365); try exact Hn; vm_compute; reflexivity.
Qed.

(** Up to the 18th of a month, the date ten days on is in the same month
    of the same year. *)
Lemma ord2ymd_ten_days n y m d :
  ord2ymd n = (y, m, d) -> d <= 18 -> ord2ymd (n + 10) = (y, m, d + 10).
Proof.
  intros Hdate Hd.
  destruct (ordinal_blocks n)
    as (q & n100 & n4 & n1 & r3 & En & Eq & E100 & E4 & E1 & E3
        & B100 & B4 & B1 & B3 & P100 & P4 & P1).
  assert (Hnormal : n1 <> 4 /\ n100 <> 4).
  { rewrite ord2ymd_unfold in Hdate. cbv zeta in Hdate.
    rewrite <- E1, <- E100 in Hdate.
    destruct (n1 =? 4) eqn:Hn1.
    - cbn [orb] in Hdate. injection Hdate as _ _ Hday. lia.
    - destruct (n100 =? 4) eqn:Hn100.
      + cbn [orb] in Hdate. injection Hdate as _ _ Hday. lia.
      + apply Z.eqb_neq in Hn1, Hn100. done. }
  destruct Hnormal as [Hn1 Hn100].
  assert (H100 : 0 <= n100 <= 3) by lia.
  assert (H4 : 0 <= n4 <= 24) by lia.
  assert (H1 : 0 <= n1 <= 3) by lia.
  replace n with (146097 * q + 36524 * n100 + 1461 * n4 + 365 * n1 + r3 + 1)
    in Hdate |- * by lia.
  rewrite ord2ymd_blocks in Hdate by assumption.
  pose proof (month_day_ten_days r3
                ((n1 =? 3) && (negb (n4 =? 24) || (n100 =? 3))) B3) as Hten.
  unfold ten_days_ok in Hten.
  destruct (month_day r3 _) as [m0 d0]. injection Hdate as <- <- <-.
  apply orb_prop in Hten. destruct Hten as [Hlate | Hten].
  { apply Z.ltb_lt in Hlate. lia. }
  apply andb_prop in Hten. destruct Hten as [Hyear Hmd].
  apply Z.ltb_lt in Hyear. apply bool_decide_eq_true_1 in Hmd.
  replace (146097 * q + 36524 * n100 + 1461 * n4 + 365 * n1 + r3 + 1 + 10)
    with (146097 * q + 36524 * n100 + 1461 * n4 + 365 * n1 + (r3 + 10) + 1)
    by lia.
  rewrite ord2ymd_blocks by (try assumption; lia).
  by rewrite Hmd.
Qed.

(** The local time ten days on, with the zone's offset unchanged. *)
Lemma localtime_ten_days tz secs :
  utcoffset tz (secs + 864000) = utcoffset tz secs ->
  day (localtime tz secs) <= 18 ->
  day (localtime tz (secs + 864000)) = day (localtime tz secs) + 10
  /\ hour (localtime tz (secs + 864000)) = hour (localtime tz secs)
  /\ minute (localtime tz (secs + 864000)) = minute (localtime tz secs)
  /\ second (localtime tz (secs + 864000)) = second (localtime tz secs).
Proof.
  unfold localtime, civil. cbv zeta. intros -> Hday.
  set (local := secs + utcoffset tz secs) in *.
  replace (secs + 864000 + utcoffset tz secs) with (local + 10 * 86400)
    by (subst local; lia).
  rewrite Z.div_add, Z.mod_add by lia.
  replace (local / 86400 + 10 + EPOCH_ORDINAL)
    with (local / 86400 + EPOCH_ORDINAL + 10) by lia.
  destruct (ord2ymd (local / 86400 + EPOCH_ORDINAL)) as [[y m] d] eqn:Hdate.
  cbn [day] in Hday.
  rewrite (ord2ymd_ten_days _ y m d Hdate Hday).
  repeat split.
Qed.

(** X11: the suffix repeats after ten days.  A run on a day up to the
    18th of a month and a run exactly ten days later, at the same local
    offset, get the same suffix, hence the same bucket name and the same
    knowledge base name. *)
Theorem suffix_repeats_after_ten_days tz current_time :
  utcoffset tz (current_time + 864000) = utcoffset tz current_time ->
  day (localtime tz current_time) <= 18 ->
  suffix tz (current_time + 864000) = suffix tz current_time
  /\ data_bucket_name (suffix tz (current_time + 864000))
     = data_bucket_name (suffix tz current_time)
  /\ knowledge_base_name (suffix tz (current_time + 864000))
     = knowledge_base_name (suffix tz current_time).
Proof.
  intros Hoff Hday.
  assert (Hsame : suffix tz (current_time + 864000) = suffix tz current_time).
  { unfold suffix. rewrite !timestamp_str_fields.
    destruct (localtime_ten_days tz current_time Hoff Hday)
      as (-> & -> & -> & ->).
    replace ((day (localtime tz current_time) + 10) mod 10)
      with (day (localtime tz current_time) mod 10); [reflexivity |].
    symmetry. apply (Z.mod_add _ 1 10). lia. }
  rewrite Hsame. repeat split.
Qed.

End TenDaysLater.

Section NameWitnesses.
Import Datetime KnowledgeBaseNames SampleZones.

Example suffix_at_noon :
  suffix kolkata 1717243200 = "1173000"
  /\ data_bucket_name (suffix kolkata 1717243200)
     = "bedrock-hr-agent-1173000-bucket".
Proof. vm_compute. split; reflexivity. Qed.

Lemma suffix_repeats_after_ten_days_witness :
  suffix kolkata (1717243200 + 864000) = suffix kolkata 1717243200
  /\ data_bucket_name (suffix kolkata (1717243200 + 864000))
     = data_bucket_name (suffix kolkata 1717243200)
  /\ knowledge_base_name (suffix kolkata (1717243200 + 864000))
     = knowledge_base_name (suffix kolkata 1717243200).
Proof.
  apply (suffix_repeats_after_ten_days kolkata 1717243200).
  - reflexivity.
  - vm_compute. discriminate.
Defined.

End NameWitnesses.

(** ** [create_s3_bucket] on every path *)

Section CreateBucketPaths.
Import KnowledgeBase KnowledgeBaseSpec KnowledgeBaseCells.
Context (aws : AWS).

(** [create_s3_bucket] in full. *)
Lemma create_s3_bucket_run bucket_name region w :
  create_s3_bucket aws bucket_name region w
  = match client_response aws w "s3" region with
    | Raise e => (Raise e, log_call (CallClient "s3" region) w)
    | Return _ =>
        match create_bucket_response aws (log_call (CallClient "s3" region) w)
                bucket_name (location_constraint region) with
        | Return _ =>
            (Return tt, add_line (success_line bucket_name)
                                 (after_create bucket_name region w))
        | Raise e =>
            if isinstance e ClientError then
              match e with
              | BotoClientError _ r _ =>
                  (Return tt, add_line (failure_line (Error_Message r))
                                       (after_create bucket_name region w))
              | PyExc _ _ =>
                  (Raise (PyExc AttributeError "object has no attribute 'response'"),
                   after_create bucket_name region w)
              end
            else (Raise e, after_create bucket_name region w)
        end
    end.
Proof.
  unfold create_s3_bucket. rewrite region_branch.
  unfold mbind, M_bind, Py.bind, try_except, boto3_client, create_bucket.
  destruct (client_response aws w "s3" region) as [[] | e]; [| reflexivity].
  destruct (create_bucket_response aws _ bucket_name (location_constraint region))
    as [[] | e]; [reflexivity |].
  cbn [dispatch]. destruct (isinstance e ClientError); [| reflexivity].
  destruct e; reflexivity.
Qed.

(** X12: the client is built outside the [try] statement: when
    [boto3.client] raises, the exception leaves [create_s3_bucket] as it
    is, a [ClientError] included; no create-bucket call is issued and
    nothing is printed. *)
Theorem create_s3_bucket_without_client bucket_name region w e :
  client_response aws w "s3" region = Raise e ->
  fst (create_s3_bucket aws bucket_name region w) = Raise e
  /\ calls (snd (create_s3_bucket aws bucket_name region w))
     = calls w ++ [CallClient "s3" region]
  /\ stdout (snd (create_s3_bucket aws bucket_name region w)) = stdout w.
Proof.
  intros Hclient. rewrite create_s3_bucket_run, Hclient. repeat split.
Qed.

(** X13: on every path [create_s3_bucket] issues at most one create-bucket
    call and leaves the objects in S3 and the local files alone; when it
    returns it has printed exactly one line, and that line reports
    success exactly when the create-bucket call returned. *)
Theorem create_s3_bucket_reports_once bucket_name region w :
  let run := create_s3_bucket aws bucket_name region w in
  (bucket_creations (calls (snd run)) <= S (bucket_creations (calls w)))%nat
  /\ objects (snd run) = objects w
  /\ trees (snd run) = trees w
  /\ (fst run = Return tt ->
      exists line,
        stdout (snd run) = stdout w ++ [line]
        /\ (line = success_line bucket_name
            <-> create_bucket_response aws (log_call (CallClient "s3" region) w)
                  bucket_name (location_constraint region) = Return tt)).
Proof.
  cbv zeta. rewrite create_s3_bucket_run.
  destruct (client_response aws w "s3" region) as [[] | e].
  2:{ cbn [fst snd log_call calls objects trees stdout].
      rewrite bucket_creations_app.
      repeat split; [cbn; lia | discriminate]. }
  assert (Hcount : (bucket_creations (calls (after_create bucket_name region w))
                    <= S (bucket_creations (calls w)))%nat).
  { unfold after_create. cbn [log_call calls].
    rewrite !bucket_creations_app. cbn. lia. }
  destruct (create_bucket_response aws _ bucket_name (location_constraint region))
    as [[] | e].
  { repeat split; try exact Hcount. intros _.
    by exists (success_line bucket_name). }
  destruct (isinstance e ClientError).
  - destruct e as [cls msg | cls r op].
    + repeat split; try exact Hcount. discriminate.
    + repeat split; try exact Hcount. intros _.
      exists (failure_line (Error_Message r)). split; [reflexivity |].
      split; [| discriminate].
      unfold failure_line, success_line. intros Hline.
      apply (f_equal (fun s => String.get 1 s)) in Hline.
      vm_compute in Hline. discriminate.
  - repeat split; try exact Hcount. discriminate.
Qed.

End CreateBucketPaths.

Section CreateBucketPathsWitnesses.
Import KnowledgeBase KnowledgeBaseSpec KnowledgeBaseCells SampleBuckets
       MoreSamples.

Lemma create_s3_bucket_without_client_witness :
  fst (create_s3_bucket strict_about_regions "docs" (Some malformed_region) fresh)
  = Raise invalid_region
  /\ calls (snd (create_s3_bucket strict_about_regions "docs"
                   (Some malformed_region) fresh))
     = [CallClient "s3" (Some "eu west")]
  /\ stdout (snd (create_s3_bucket strict_about_regions "docs"
                    (Some malformed_region) fresh)) = [].
Proof.
  apply (create_s3_bucket_without_client strict_about_regions "docs"
           (Some malformed_region) fresh).
  reflexivity.
Defined.

Lemma create_s3_bucket_reports_once_witness :
  exists line,
    stdout (snd (create_s3_bucket obliging "docs" (Some "eu-west-1") fresh))
    = [line]
    /\ line = "✅ Bucket 'docs' created successfully.".
Proof.
  destruct (create_s3_bucket_reports_once obliging "docs" (Some "eu-west-1") fresh)
    as (_ & _ & _ & Hline).
  destruct (Hline eq_refl) as (line & Hout & Hsuccess).
  exists line. split; [exact Hout |]. by apply Hsuccess.
Defined.

End CreateBucketPathsWitnesses.

(** ** [upload_directory] on every path *)

Section UploadPaths.
Import KnowledgeBase KnowledgeBaseSpec KnowledgeBaseCells.
Context (aws : AWS).

(** A loop over two lists in a row: the second part runs in the world
    the first leaves, unless the first raises. *)
Lemma for_each_app {A} (l1 l2 : list A) (body : A -> M World unit) w :
  for_each (l1 ++ l2) body w
  = match for_each l1 body w with
    | (Return _, w') => for_each l2 body w'
    | (Raise e, w') => (Raise e, w')
    end.
Proof.
  revert w. induction l1 as [| x l1 IH]; intros w; [reflexivity |].
  cbn [app for_each]. unfold mbind, M_bind, Py.bind.
  destruct (body x w) as [[[] | e] w']; [apply IH | reflexivity].
Qed.

Lemma for_each_files_of_directory bucket_name root files w :
  for_each files (fun file =>
    let file_to_upload := os_path_join root file in
    print ("uploading file " +:+ file_to_upload +:+ " to " +:+ bucket_name);;
    upload_file aws file_to_upload bucket_name file) w
  = for_each (map (pair root) files) (upload_step aws bucket_name) w.
Proof.
  revert w. induction files as [| file files IH]; intros w; [reflexivity |].
  cbn [map for_each].
  change (upload_step aws bucket_name (root, file))
    with (print ("uploading file " +:+ os_path_join root file +:+ " to "
                   +:+ bucket_name);;
          upload_file aws (os_path_join root file) bucket_name file).
  cbv zeta.
  set (step := print _ ≫= _).
  unfold mbind, M_bind, Py.bind.
  destruct (step w) as [[[] | e] w']; [apply IH | reflexivity].
Qed.

(** The two nested loops are one loop over the files of the walk. *)
Lemma for_each_triples bucket_name triples w :
  for_each triples (fun '(root, dirs, files) =>
    for_each files (fun file =>
      let file_to_upload := os_path_join root file in
      print ("uploading file " +:+ file_to_upload +:+ " to " +:+ bucket_name);;
      upload_file aws file_to_upload bucket_name file)) w
  = for_each (walk_files triples) (upload_step aws bucket_name) w.
Proof.
  revert w. induction triples as [| [[root dirs] files] triples IH]; intros w;
    [reflexivity |].
  cbn [for_each walk_files flat_map]. rewrite for_each_app.
  unfold mbind at 1, M_bind at 1, Py.bind at 1.
  rewrite for_each_files_of_directory.
  destruct (for_each (map (pair root) files) _ w) as [[[] | e] w'];
    [apply IH | reflexivity].
Qed.

Lemma upload_directory_as_loop path bucket_name w :
  upload_directory aws path bucket_name w
  = for_each (walk_files (match trees w !! path with
                          | Some tree => walk path tree
                          | None => []
                          end))
             (upload_step aws bucket_name) w.
Proof.
  unfold upload_directory.
  unfold mbind at 1, M_bind at 1, Py.bind at 1, os_walk.
  apply for_each_triples.
Qed.

Lemma upload_step_accepted bucket_name rf w :
  upload_file_response aws (add_line (upload_line bucket_name rf) w)
    (os_path_join rf.1 rf.2) bucket_name rf.2 = Return tt ->
  upload_step aws bucket_name rf w
  = (Return tt, after_uploads bucket_name [rf] w).
Proof.
  intros Hok. unfold upload_step, mbind, M_bind, Py.bind, print, upload_file.
  cbv zeta. unfold add_line, upload_line in Hok. rewrite Hok. reflexivity.
Qed.

Lemma upload_step_refused bucket_name rf w e :
  upload_file_response aws (add_line (upload_line bucket_name rf) w)
    (os_path_join rf.1 rf.2) bucket_name rf.2 = Raise e ->
  upload_step aws bucket_name rf w
  = (Raise e, after_failed_upload bucket_name rf w).
Proof.
  intros Hno. unfold upload_step, mbind, M_bind, Py.bind, print, upload_file.
  cbv zeta. unfold add_line, upload_line in Hno. rewrite Hno. reflexivity.
Qed.

(** A loop over files whose uploads are all accepted. *)
Lemma uploads_accepted bucket_name files : forall w,
  (forall rf w', rf ∈ files ->
     upload_file_response aws w' (os_path_join rf.1 rf.2) bucket_name rf.2
     = Return tt) ->
  for_each files (upload_step aws bucket_name) w
  = (Return tt, after_uploads bucket_name files w).
Proof.
  induction files as [| rf files IH]; intros w Hok.
  - cbn. destruct w. unfold after_uploads. cbn. by rewrite !app_nil_r.
  - cbn [for_each]. unfold mbind, M_bind, Py.bind.
    rewrite upload_step_accepted by (apply Hok, list_elem_of_here).
    rewrite IH by (intros; apply Hok; by apply list_elem_of_further).
    change (rf :: files) with ([rf] ++ files).
    f_equal. unfold after_uploads, objects_after. cbn [calls stdout trees objects].
    rewrite !map_app, !app_assoc, foldl_app. reflexivity.
Qed.

(** X14: a path that is missing, or under which the walk finds no file,
    makes [upload_directory] return at once: nothing is uploaded,
    nothing printed, and no exception tells the caller. *)
Theorem upload_directory_without_files path bucket_name w :
  (trees w !! path = None ->
   upload_directory aws path bucket_name w = (Return tt, w))
  /\ (forall tree,
         trees w !! path = Some tree ->
         walk_files (walk path tree) = [] ->
         upload_directory aws path bucket_name w = (Return tt, w)).
Proof.
  split.
  - intros Hnone. rewrite upload_directory_as_loop, Hnone. reflexivity.
  - intros tree Htree Hempty.
    rewrite upload_directory_as_loop, Htree, Hempty. reflexivity.
Qed.

(** X15: [upload_directory] stops at the first upload that fails: the
    exception leaves the function, the files before it are uploaded and
    stay uploaded, the failing upload is the last call, and the files
    after it are never attempted. *)
Theorem upload_directory_stops_at_first_failure
  path bucket_name tree w pre rf post e :
  trees w !! path = Some tree ->
  walk_files (walk path tree) = pre ++ rf :: post ->
  (forall g w', g ∈ pre ->
     upload_file_response aws w' (os_path_join g.1 g.2) bucket_name g.2
     = Return tt) ->
  (forall w',
     upload_file_response aws w' (os_path_join rf.1 rf.2) bucket_name rf.2
     = Raise e) ->
  let run := upload_directory aws path bucket_name w in
  fst run = Raise e
  /\ calls (snd run)
     = calls w ++ map (upload_call bucket_name) pre ++ [upload_call bucket_name rf]
  /\ objects (snd run) = objects_after bucket_name pre (objects w).
Proof.
  intros Htree Hfiles Hpre Hrf. cbv zeta.
  rewrite upload_directory_as_loop, Htree, Hfiles, for_each_app.
  rewrite uploads_accepted by exact Hpre.
  cbn [for_each]. unfold mbind, M_bind, Py.bind.
  rewrite (upload_step_refused _ _ _ e) by apply Hrf.
  cbn [fst snd]. split; [reflexivity |]. split; [| reflexivity].
  cbn. by rewrite <- app_assoc.
Qed.

End UploadPaths.

Section UploadObjects.
Import KnowledgeBase KnowledgeBaseSpec KnowledgeBaseCells.
Context (aws : AWS).

Lemma upload_step_frame bucket_name rf w k :
  k <> (bucket_name, rf.2) ->
  objects (snd (upload_step aws bucket_name rf w)) !! k = objects w !! k.
Proof.
  intros Hk. unfold upload_step, mbind, M_bind, Py.bind, print, upload_file.
  cbv zeta.
  destruct (upload_file_response aws _ _ _ _) as [[] | e]; cbn; [| reflexivity].
  by rewrite lookup_insert_ne.
Qed.

Lemma upload_step_trees bucket_name rf w :
  trees (snd (upload_step aws bucket_name rf w)) = trees w.
Proof.
  unfold upload_step, mbind, M_bind, Py.bind, print, upload_file. cbv zeta.
  destruct (upload_file_response aws _ _ _ _) as [[] | e]; reflexivity.
Qed.

(** A loop of uploads leaves alone every key that is not the name of one
    of its files, whether the uploads succeed or not. *)
Lemma uploads_frame bucket_name files k : forall w,
  (forall rf, rf ∈ files -> k <> (bucket_name, rf.2)) ->
  objects (snd (for_each files (upload_step aws bucket_name) w)) !! k
  = objects w !! k.
Proof.
  induction files as [| rf files IH]; intros w Hk; [reflexivity |].
  cbn [for_each]. unfold mbind, M_bind, Py.bind.
  pose proof (upload_step_frame bucket_name rf w k
                (Hk rf (list_elem_of_here _ _))) as Hstep.
  destruct (upload_step aws bucket_name rf w) as [[[] | e] w'];
    cbn [snd] in Hstep |- *; [| exact Hstep].
  rewrite IH; [exact Hstep |].
  intros g Hg. apply Hk. by apply list_elem_of_further.
Qed.

(** X17: [upload_directory] changes no object but those under the names
    of the tree's files in the bucket it was given: every other key, and
    every other bucket, keeps what it had, on every path, a failed run
    included. *)
Theorem upload_directory_touches_only_its_keys path bucket_name w Bucket Key :
  (Bucket <> bucket_name
   \/ forall tree root,
        trees w !! path = Some tree -> ~ file_in path tree root Key) ->
  objects (snd (upload_directory aws path bucket_name w)) !! (Bucket, Key)
  = objects w !! (Bucket, Key).
Proof.
  intros Hother. rewrite upload_directory_as_loop. apply uploads_frame.
  intros [root name] Hin [= -> ->]. cbn [snd] in Hother.
  destruct Hother as [Hbucket | Hname]; [done |].
  destruct (trees w !! path) as [tree |] eqn:Htree.
  - apply (Hname tree root eq_refl). by apply walk_lists_files_only.
  - by apply elem_of_nil in Hin.
Qed.

(** The last file of a given name in a list of files. *)
Lemma last_of_name (name : string) (files : list (string * string)) :
  name ∈ map snd files ->
  exists pre root post,
    files = pre ++ (root, name) :: post /\ name ∉ map snd post.
Proof.
  induction files as [| [r n] files IH]; intros Hin.
  - by apply elem_of_nil in Hin.
  - destruct (decide (name ∈ map snd files)) as [Hlater | Hlast].
    + destruct (IH Hlater) as (pre & root & post & -> & Hpost).
      by exists ((r, n) :: pre), root, post.
    + cbn [map snd] in Hin. apply elem_of_cons in Hin.
      destruct Hin as [-> | Hin]; [| contradiction].
      by exists [], r, files.
Qed.

Lemma objects_after_miss bucket_name files k : forall objs,
  (forall rf, rf ∈ files -> k <> (bucket_name, rf.2)) ->
  objects_after bucket_name files objs !! k = objs !! k.
Proof.
  unfold objects_after.
  induction files as [| rf files IH]; intros objs Hk; [reflexivity |].
  cbn [foldl]. rewrite IH.
  - apply lookup_insert_ne. intros Heq. by apply (Hk rf (list_elem_of_here _ _)).
  - intros g Hg. apply Hk. by apply list_elem_of_further.
Qed.

(** Uploading the same files again changes nothing in the bucket. *)
Lemma objects_after_twice bucket_name files objs :
  objects_after bucket_name files (objects_after bucket_name files objs)
  = objects_after bucket_name files objs.
Proof.
  apply map_eq. intros [b key].
  destruct (decide (b = bucket_name /\ key ∈ map snd files)) as [[-> Hin] | Hout].
  - destruct (last_of_name key files Hin) as (pre & root & post & -> & Hpost).
    by rewrite !objects_after_last.
  - apply objects_after_miss. intros [r n] Hg [= -> ->]. apply Hout.
    split; [reflexivity |].
    apply list_elem_of_In. change n with (snd (r, n)).
    apply in_map. by apply list_elem_of_In.
Qed.

(** X16: when the uploads succeed, running [upload_directory] a second
    time leaves the bucket as the first run left it, while every file is
    sent again. *)
Theorem upload_directory_twice path bucket_name tree w :
  (forall w' Filename Bucket Key,
      upload_file_response aws w' Filename Bucket Key = Return tt) ->
  trees w !! path = Some tree ->
  let once := snd (upload_directory aws path bucket_name w) in
  let twice := snd (upload_directory aws path bucket_name once) in
  objects twice = objects once
  /\ uploads (calls twice)
     = (uploads (calls once) + length (walk_files (walk path tree)))%nat.
Proof.
  intros Hok Htree. cbv zeta.
  rewrite (upload_directory_run aws Hok _ _ _ _ Htree). cbn [snd].
  rewrite (upload_directory_run aws Hok path bucket_name tree
             (after_uploads bucket_name (walk_files (walk path tree)) w) Htree).
  cbn [snd after_uploads objects calls].
  split; [apply objects_after_twice |].
  unfold uploads. rewrite List.filter_app, length_app. f_equal.
  generalize (walk_files (walk path tree)). intros files.
  induction files as [| rf files IH]; [reflexivity |].
  cbn. by rewrite IH.
Qed.

(** X18: when the uploads succeed and no two files of the tree share a
    name, nothing is lost: every file of the tree is found in the bucket
    under its name. *)
Theorem upload_directory_keeps_files_with_unique_names
  path bucket_name tree w root name :
  (forall w' Filename Bucket Key,
      upload_file_response aws w' Filename Bucket Key = Return tt) ->
  trees w !! path = Some tree ->
  NoDup (map snd (walk_files (walk path tree))) ->
  file_in path tree root name ->
  objects (snd (upload_directory aws path bucket_name w)) !! (bucket_name, name)
  = Some (os_path_join root name).
Proof.
  intros Hok Htree Hunique Hfile.
  rewrite (upload_directory_run aws Hok _ _ _ _ Htree).
  cbn [snd after_uploads objects].
  apply walk_reaches_every_file in Hfile.
  apply list_elem_of_In, in_split in Hfile.
  destruct Hfile as (pre & post & Hsplit).
  rewrite Hsplit in Hunique |- *.
  apply objects_after_last.
  rewrite map_app in Hunique. apply NoDup_app in Hunique.
  destruct Hunique as (_ & _ & Hpost).
  cbn [map snd] in Hpost. by apply NoDup_cons in Hpost as [Hnotin _].
Qed.

End UploadObjects.

(** ** The provisioning cells in a row *)

Section ProvisionFacts.
Import KnowledgeBase KnowledgeBaseSpec KnowledgeBaseCells.
Context (aws : AWS).




End ProvisionFacts.

Section UploadPathsWitnesses.
Import KnowledgeBase KnowledgeBaseSpec KnowledgeBaseCells SampleBuckets
       MoreSamples.

Lemma upload_directory_without_files_witness :
  upload_directory obliging "./no_such_directory" "docs" fresh
  = (Return tt, fresh).
Proof.
  destruct (upload_directory_without_files obliging "./no_such_directory"
              "docs" fresh) as [Hmissing _].
  apply Hmissing. reflexivity.
Defined.

Lemma upload_directory_stops_at_first_failure_witness :
  fst (upload_directory
         (rejecting_file "./onboarding_files/benefits/faq.md" upload_failed)
         "./onboarding_files" "docs" fresh)
  = Raise upload_failed
  /\ calls (snd (upload_directory
                   (rejecting_file "./onboarding_files/benefits/faq.md" upload_failed)
                   "./onboarding_files" "docs" fresh))
     = [ CallUploadFile "./onboarding_files/handbook.pdf" "docs" "handbook.pdf";
         CallUploadFile "./onboarding_files/benefits/faq.md" "docs" "faq.md" ]
  /\ objects (snd (upload_directory
                     (rejecting_file "./onboarding_files/benefits/faq.md" upload_failed)
                     "./onboarding_files" "docs" fresh))
     = {[ ("docs", "handbook.pdf") := "./onboarding_files/handbook.pdf" ]}.
Proof.
  apply (upload_directory_stops_at_first_failure
           (rejecting_file "./onboarding_files/benefits/faq.md" upload_failed)
           "./onboarding_files" "docs" onboarding_files fresh
           [("./onboarding_files", "handbook.pdf")]
           ("./onboarding_files/benefits", "faq.md")
           [("./onboarding_files/benefits", "medical.pdf");
            ("./onboarding_files/policies", "faq.md")]
           upload_failed).
  - reflexivity.
  - reflexivity.
  - intros g w' Hg. apply list_elem_of_singleton in Hg. subst g. reflexivity.
  - intros w'. reflexivity.
Defined.

Lemma upload_directory_touches_only_its_keys_witness :
  objects (snd (upload_directory obliging "./onboarding_files" "docs" fresh))
    !! ("archive", "faq.md")
  = None.
Proof.
  apply (upload_directory_touches_only_its_keys obliging "./onboarding_files"
           "docs" fresh "archive" "faq.md").
  left. discriminate.
Defined.

Lemma upload_directory_twice_witness :
  objects (snd (upload_directory obliging "./onboarding_files" "docs"
                  (snd (upload_directory obliging "./onboarding_files" "docs" fresh))))
  = objects (snd (upload_directory obliging "./onboarding_files" "docs" fresh))
  /\ uploads (calls (snd (upload_directory obliging "./onboarding_files" "docs"
                  (snd (upload_directory obliging "./onboarding_files" "docs" fresh)))))
     = 8%nat.
Proof.
  apply (upload_directory_twice obliging "./onboarding_files" "docs"
           onboarding_files fresh (fun _ _ _ _ => eq_refl) eq_refl).
Defined.

Lemma upload_directory_keeps_files_with_unique_names_witness :
  objects (snd (upload_directory obliging "./guides" "docs" guides_world))
    !! ("docs", "leave.md")
  = Some "./guides/hr/leave.md".
Proof.
  apply (upload_directory_keeps_files_with_unique_names obliging "./guides" "docs"
           guides guides_world "./guides/hr" "leave.md"
           (fun _ _ _ _ => eq_refl) eq_refl).
  - cbn. apply NoDup_cons. split; [| apply NoDup_singleton].
    rewrite list_elem_of_singleton. discriminate.
  - apply (file_below "./guides" _ "hr" (Dir [("leave.md", File)])).
    + apply list_elem_of_further, list_elem_of_here.
    + apply file_here. apply list_elem_of_here.
Defined.


End UploadPathsWitnesses.
